(** * betting_system.py: the transcription-to-event pipeline

    A shallow embedding of [BettingSystem] (src/betting_system.py): the
    keyword matcher, the subscriber registry and broadcast, the request
    generator of the recognition session, stream-URL resolution, and the
    start/stop life cycle.

    Python values are modelled as follows.
    - [str]: [string]; a character of the string is one code point in the
      range U+0000..U+00FF, so [lower], whitespace and [strip] follow
      Python's tables on that range.
    - [set]: stdpp's [gset]; [list(set(...))] is [elements], whose order is
      as unspecified here as it is in Python.
    - the object [self] and the outside world (log, processes, sockets,
      spawned tasks): explicit state and a list of performed events,
      threaded by a monad [M] with exceptions. What the world answers (a
      subprocess result, a failed send) is an argument of the operation
      that asks. *)

From Stdlib Require Import ZArith Ascii String List Lia.
From stdpp Require Import base tactics option list sets gmap strings pretty.

Local Open Scope Z_scope.

(** ** Python's [str] methods used by the program *)

Module PyStr.

(** [str.isspace] on one code point: TAB..CR, FS..US, SPACE, NEL, NBSP. *)
Definition is_space (c : ascii) : bool :=
  let n := nat_of_ascii c in
  ((9 <=? n) && (n <=? 13) || (28 <=? n) && (n <=? 32)
   || (n =? 133) || (n =? 160))%nat.

(** [str.lower] on one code point: A..Z, and U+00C0..U+00DE but U+00D7. *)
Definition lower_char (c : ascii) : ascii :=
  let n := nat_of_ascii c in
  if ((65 <=? n) && (n <=? 90)
      || (192 <=? n) && (n <=? 222) && negb (n =? 215))%nat
  then ascii_of_nat (n + 32) else c.

Fixpoint lower (s : string) : string :=
  match s with
  | EmptyString => EmptyString
  | String c s' => String (lower_char c) (lower s')
  end.

(** [s.replace(old, new)] for a one-character [old]. *)
Fixpoint replace (old : ascii) (new : string) (s : string) : string :=
  match s with
  | EmptyString => EmptyString
  | String c s' =>
      if Ascii.eqb c old then new +:+ replace old new s'
      else String c (replace old new s')
  end.

Definition push_word (w : string) (ws : list string) : list string :=
  match w with EmptyString => ws | _ => w :: ws end.

(** One right-to-left pass: the word that is open at the front of [s],
    and the words after it. *)
Fixpoint scan (s : string) : string * list string :=
  match s with
  | EmptyString => (EmptyString, [])
  | String c s' =>
      let '(w, ws) := scan s' in
      if is_space c then (EmptyString, push_word w ws)
      else (String c w, ws)
  end.

(** [s.split()]: the maximal runs of non-whitespace, in order. *)
Definition split (s : string) : list string :=
  let '(w, ws) := scan s in push_word w ws.

Fixpoint lstrip (s : string) : string :=
  match s with
  | EmptyString => EmptyString
  | String c s' => if is_space c then lstrip s' else s
  end.

Fixpoint rstrip (s : string) : string :=
  match s with
  | EmptyString => EmptyString
  | String c s' =>
      match rstrip s' with
      | EmptyString => if is_space c then EmptyString else String c EmptyString
      | r => String c r
      end
  end.

(** [s.strip()]. *)
Definition strip (s : string) : string := rstrip (lstrip s).

(** [s.split(sep)] for a one-character [sep]: never empty, keeps empty
    fields. The head of the result is the field that is open at the front. *)
Fixpoint split_on (sep : ascii) (s : string) : list string :=
  match s with
  | EmptyString => [EmptyString]
  | String c s' =>
      if Ascii.eqb c sep then EmptyString :: split_on sep s'
      else match split_on sep s' with
           | w :: ws => String c w :: ws
           | [] => [String c EmptyString]
           end
  end.

Fixpoint occurs (c : ascii) (s : string) : bool :=
  match s with
  | EmptyString => false
  | String d s' => Ascii.eqb d c || occurs c s'
  end.

Fixpoint has_space (s : string) : bool :=
  match s with
  | EmptyString => false
  | String c s' => is_space c || has_space s'
  end.

End PyStr.

(** ** Data model *)

Abbreviation bytes := (list Byte.byte).

(** Python exceptions the program meets. [CancelledError] and
    [KeyboardInterrupt] derive from [BaseException] only; the others derive
    from [Exception]. *)
Inductive exn : Type :=
| TimeoutError
| CancelledError
| KeyboardInterrupt
| RuntimeError (msg : string)
| UnicodeDecodeError
| OSError (msg : string)
| KeyError.

(** [isinstance(e, Exception)]. *)
Definition is_Exception (e : exn) : bool :=
  match e with
  | CancelledError | KeyboardInterrupt => false
  | _ => true
  end.

(** [str(e)], as the f-strings of the log lines print it; an exception
    whose message is not modelled prints as the empty string. *)
Definition exn_str (e : exn) : string :=
  match e with
  | RuntimeError msg | OSError msg => msg
  | _ => ""
  end.

Inductive AudioEncoding := ENCODING_UNSPECIFIED | LINEAR16 | FLAC | MULAW.

Record RecognitionConfig := {
  encoding : AudioEncoding;
  sample_rate_hertz : Z;
  language_code : string;
  enable_automatic_punctuation : bool;
  model : string;
}.

Record StreamingRecognitionConfig := {
  config : RecognitionConfig;
  interim_results : bool;
}.

(** A request of the streaming call; a field that the constructor was not
    given is [None]. *)
Record StreamingRecognizeRequest := {
  req_streaming_config : option StreamingRecognitionConfig;
  req_audio_content : option bytes;
}.

Record SpeechRecognitionAlternative := { transcript : string }.

Record StreamingRecognitionResult := {
  alternatives : list SpeechRecognitionAlternative;
  is_final : bool;
}.

Record StreamingRecognizeResponse := {
  results : list StreamingRecognitionResult;
}.

(** The dict built by [_process_stt_response]. *)
Record message := {
  msg_type : string;
  msg_timestamp : Z;
  msg_text : string;
  msg_keywords : list string;
  msg_is_final : bool;
}.

(** An [asyncio] subprocess object: [returncode] stays [None] until the
    event loop has seen the child exit. *)
Record Process := {
  pid : nat;
  returncode : option Z;
}.

(** A connected dashboard client. *)
Abbreviation WebSocket := nat.

Inductive level := INFO | ERROR.

(** What the program does to the world, in order. *)
Inductive event : Type :=
| EvLog (l : level) (text : string)
| EvServe (port : Z)
| EvServerClose
| EvServerWaitClosed
| EvSpawn (cmd : list string) (p : nat)
| EvTerminate (p : nat)
| EvStreamingRecognize
| EvCreateTask (m : message)
| EvSend (client : WebSocket) (payload : string).

(** The fields of [self]. *)
Record BettingSystem := {
  keywords : gset string;
  ws_port : Z;
  streaming_config : StreamingRecognitionConfig;
  is_running : bool;
  ffmpeg_process : option Process;
  clients : gset WebSocket;
}.

(** The state the methods run in: [self], and the number of clock reads. *)
Record World := {
  self : BettingSystem;
  ticks : nat;
}.

Definition set_is_running (b : bool) (s : BettingSystem) : BettingSystem :=
  {| keywords := keywords s; ws_port := ws_port s;
     streaming_config := streaming_config s; is_running := b;
     ffmpeg_process := ffmpeg_process s; clients := clients s |}.

Definition set_ffmpeg_process (p : option Process) (s : BettingSystem)
  : BettingSystem :=
  {| keywords := keywords s; ws_port := ws_port s;
     streaming_config := streaming_config s; is_running := is_running s;
     ffmpeg_process := p; clients := clients s |}.

Definition set_clients (c : gset WebSocket) (s : BettingSystem)
  : BettingSystem :=
  {| keywords := keywords s; ws_port := ws_port s;
     streaming_config := streaming_config s; is_running := is_running s;
     ffmpeg_process := ffmpeg_process s; clients := c |}.

(** ** The monad of the methods

    A method maps the state to its result (a value or a raised exception),
    the state it leaves, and the events it performed, in order. *)

Inductive outcome (A : Type) : Type :=
| Ret (a : A)
| Raise (e : exn).
Arguments Ret {A} a.
Arguments Raise {A} e.

Record run (A : Type) : Type := Run {
  result : outcome A;
  final : World;
  events : list event;
}.
Arguments Run {A} _ _ _.
Arguments result {A} _.
Arguments final {A} _.
Arguments events {A} _.

Definition M (A : Type) : Type := World → run A.

Definition ret {A} (a : A) : M A := λ w, Run (Ret a) w [].

Definition raise {A} (e : exn) : M A := λ w, Run (Raise e) w [].

(** What a run is followed by: the events add up. *)
Definition after {A} (evs : list event) (r : run A) : run A :=
  match r with Run x w evs' => Run x w (evs ++ evs') end.

Definition bind {A B} (m : M A) (k : A → M B) : M B :=
  λ w, match m w with
       | Run (Ret a) w' evs => after evs (k a w')
       | Run (Raise e) w' evs => Run (Raise e) w' evs
       end.

Notation "'let*' x ':=' m 'in' k" := (bind m (λ x, k))
  (at level 10, x name, m at level 100, k at level 200, only parsing).
Notation "m >> k" := (bind m (λ _, k))
  (at level 90, right associativity, only parsing).

(** [try: body except ...:]: [handler e] is the clause that matches [e];
    an exception that no clause matches goes on to the caller. *)
Definition try_except {A} (body : M A) (handler : exn → option (M A)) : M A :=
  λ w, match body w with
       | Run (Ret a) w' evs => Run (Ret a) w' evs
       | Run (Raise e) w' evs =>
           match handler e with
           | Some h => after evs (h w')
           | None => Run (Raise e) w' evs
           end
       end.

(** [try: body finally: fin]: [fin] runs either way; an exception of [fin]
    replaces the result of [body]. *)
Definition try_finally {A} (body : M A) (fin : M unit) : M A :=
  λ w, match body w with
       | Run x w' evs =>
           match fin w' with
           | Run (Ret _) w'' evs' => Run x w'' (evs ++ evs')
           | Run (Raise e) w'' evs' => Run (Raise e) w'' (evs ++ evs')
           end
       end.

Definition get_self : M BettingSystem := λ w, Run (Ret (self w)) w [].

Definition modify_self (f : BettingSystem → BettingSystem) : M unit :=
  λ w, Run (Ret tt) {| self := f (self w); ticks := ticks w |} [].

Definition emit (e : event) : M unit := λ w, Run (Ret tt) w [e].

Definition logger_info (text : string) : M unit := emit (EvLog INFO text).
Definition logger_error (text : string) : M unit := emit (EvLog ERROR text).

(** [for x in xs: body x]. *)
Fixpoint for_each {A} (xs : list A) (body : A → M unit) : M unit :=
  match xs with
  | [] => ret tt
  | x :: xs' => body x >> for_each xs' body
  end.

(** ** The class [BettingSystem] *)

(** [_get_streaming_config]. *)
Definition _get_streaming_config : StreamingRecognitionConfig :=
  {| config := {| encoding := LINEAR16;
                  sample_rate_hertz := 16000;
                  language_code := "en-US";
                  enable_automatic_punctuation := true;
                  model := "video" |};
     interim_results := true |}.

(** [__init__]: the keyword set holds the lowercased configured words. *)
Definition __init__ (kws : list string) (port : Z) : BettingSystem :=
  {| keywords := list_to_set (PyStr.lower <$> kws);
     ws_port := port;
     streaming_config := _get_streaming_config;
     is_running := false;
     ffmpeg_process := None;
     clients := ∅ |}.

(** [text.lower().replace('.', '').replace(',', '').split()]. *)
Definition words_of (text : string) : list string :=
  PyStr.split
    (PyStr.replace ","%char "" (PyStr.replace "."%char "" (PyStr.lower text))).

(** [_find_keywords]. *)
Definition _find_keywords (s : BettingSystem) (text : string) : list string :=
  let found := filter (λ word, word ∈ keywords s) (words_of text) in
  elements (list_to_set found : gset string).

(** *** The subscriber registry and the broadcast *)

(** [self.clients.add(websocket)]. *)
Definition clients_add (websocket : WebSocket) : M unit :=
  modify_self (λ s, set_clients ({[websocket]} ∪ clients s) s).

(** [self.clients.remove(websocket)]: Python's [set.remove] raises
    [KeyError] when the element is not a member. *)
Definition clients_remove (websocket : WebSocket) : M unit :=
  let* s := get_self in
  if decide (websocket ∈ clients s)
  then modify_self (set_clients (clients s ∖ {[websocket]}))
  else raise KeyError.

(** [_websocket_handler]. [wait_closed] is what happens to the world while
    the handler is suspended in [await websocket.wait_closed()], and how the
    await ends. *)
Definition _websocket_handler (wait_closed : M unit) (websocket : WebSocket)
  : M unit :=
  logger_info "New dashboard client connected" >>
  clients_add websocket >>
  try_finally wait_closed
    (logger_info "Dashboard client disconnected" >>
     clients_remove websocket).

Section broadcast.

(** [json.dumps] on a message. *)
Variable json_dumps : message → string.

(** How [client.send] ends for each client: it returns, or it raises. *)
Variable send_answer : WebSocket → outcome unit.

Definition client_send (client : WebSocket) (payload : string) : M unit :=
  match send_answer client with
  | Ret _ => emit (EvSend client payload)
  | Raise e => raise e
  end.

(** [asyncio.gather] with [return_exceptions=True]: every task runs; an
    exception of a task is its entry in the list of results. *)
Fixpoint gather_return_exceptions {A} (tasks : list (M A))
  : M (list (outcome A)) :=
  match tasks with
  | [] => ret []
  | t :: ts =>
      λ w, match t w with
           | Run x w' evs =>
               after evs
                 (bind (gather_return_exceptions ts) (λ rs, ret (x :: rs)) w')
           end
  end.

(** [_broadcast]. *)
Definition _broadcast (m : message) : M unit :=
  let* s := get_self in
  if decide (clients s = ∅) then ret tt
  else
    let tasks :=
      (λ client, client_send client (json_dumps m)) <$> elements (clients s) in
    let* _ := gather_return_exceptions tasks in
    ret tt.

End broadcast.

(** *** Results of the recognition service *)

Section responses.

(** [time.time()]: the value of the n-th read of the clock. *)
Variable time_time : nat → Z.

Definition read_clock : M Z :=
  λ w, Run (Ret (time_time (ticks w)))
           {| self := self w; ticks := S (ticks w) |} [].

(** [asyncio.create_task(self._broadcast(message))]: the broadcast is handed
    to the event loop and runs later. *)
Definition create_task_broadcast (m : message) : M unit :=
  emit (EvCreateTask m).

Definition join_words (ws : list string) : string :=
  foldr (λ w acc, w +:+ " " +:+ acc) "" ws.

(** [_process_stt_response]. The text of the last log line is abridged. *)
Definition _process_stt_response (response : StreamingRecognizeResponse)
  : M unit :=
  for_each (results response) (λ result,
    match alternatives result with
    | [] => ret tt
    | top :: _ =>
        let text := transcript top in
        let final_flag := is_final result in
        let* s := get_self in
        let detected_keywords := _find_keywords s text in
        let* now := read_clock in
        let message :=
          {| msg_type := "transcription";
             msg_timestamp := now;
             msg_text := text;
             msg_keywords := detected_keywords;
             msg_is_final := final_flag |} in
        create_task_broadcast message >>
        match final_flag, detected_keywords with
        | true, _ :: _ =>
            logger_info (text +:+ " -> DETECTED: "
                         +:+ join_words detected_keywords)
        | _, _ => ret tt
        end
    end).

(** The [async for] of [_google_stt_stream]: [ending] is how the stream of
    responses ends after the last one, normally or by an exception. *)
Fixpoint consume_responses (responses : list StreamingRecognizeResponse)
    (ending : option exn) : M unit :=
  match responses with
  | [] => match ending with None => ret tt | Some e => raise e end
  | response :: rest =>
      let* s := get_self in
      if negb (is_running s) then ret tt
      else _process_stt_response response >> consume_responses rest ending
  end.

(** [_google_stt_stream]: the call of [streaming_recognize] opens the
    session; [opened] is how that call ends. *)
Definition _google_stt_stream (opened : outcome unit)
    (responses : list StreamingRecognizeResponse) (ending : option exn)
  : M unit :=
  emit EvStreamingRecognize >>
  match opened with
  | Raise e => raise e
  | Ret _ =>
      logger_info "Streaming audio to Google STT..." >>
      consume_responses responses ending
  end.

End responses.

(** *** The requests of a recognition session *)

Inductive read_answer :=
| ReadBytes (chunk : bytes)
| ReadRaises (e : exn).

(** How far the generator got: it waits to be resumed, it finished, or an
    exception left it. *)
Inductive generator_end := Suspended | Exhausted | Raised (e : exn).

Definition config_request (c : StreamingRecognitionConfig)
  : StreamingRecognizeRequest :=
  {| req_streaming_config := Some c; req_audio_content := None |}.

Definition audio_request (chunk : bytes) : StreamingRecognizeRequest :=
  {| req_streaming_config := None; req_audio_content := Some chunk |}.

(** The [while self.is_running] loop of [request_generator]. Each element of
    [steps] is one iteration: the value of [self.is_running] when the loop
    tests it, and the answer of [stdout.read(8000)]. *)
Fixpoint audio_requests (steps : list (bool * read_answer))
  : list StreamingRecognizeRequest * generator_end :=
  match steps with
  | [] => ([], Suspended)
  | (running, answer) :: steps' =>
      if running then
        match answer with
        | ReadBytes [] => ([], Exhausted)
        | ReadBytes chunk =>
            let '(rs, e) := audio_requests steps' in
            (audio_request chunk :: rs, e)
        | ReadRaises CancelledError => ([], Exhausted)
        | ReadRaises e => ([], Raised e)
        end
      else ([], Exhausted)
  end.

(** [request_generator]: the requests it yields, in order. *)
Definition request_generator (s : BettingSystem)
    (steps : list (bool * read_answer))
  : list StreamingRecognizeRequest * generator_end :=
  let '(rs, e) := audio_requests steps in
  (config_request (streaming_config s) :: rs, e).

(** *** Subprocesses and the life cycle *)

(** [asyncio.create_subprocess_exec] on the command [cmd]: [answer] is the child's
    process id, or the exception of a failed spawn. *)
Definition create_subprocess_exec (answer : outcome nat) (cmd : list string)
  : M Process :=
  match answer with
  | Ret p => emit (EvSpawn cmd p) >> ret {| pid := p; returncode := None |}
  | Raise e => raise e
  end.

(** [bytes.decode()]: [None] stands for bytes that are not valid UTF-8. *)
Definition decode (b : option string) : M string :=
  match b with
  | Some s => ret s
  | None => raise UnicodeDecodeError
  end.

(** What [process.communicate()] returns once the child has exited: its
    exit status and its two output streams. *)
Record completed := {
  exit_status : Z;
  stdout : option string;
  stderr : option string;
}.

(** [l[-1]] on a list of strings. *)
Definition last_item (l : list string) : string := default "" (last l).

(** [_get_stream_url]. [spawned] answers the spawn of yt-dlp and
    [communicated] the [wait_for(process.communicate(), timeout=15.0)]. *)
Definition _get_stream_url (spawned : outcome nat)
    (communicated : outcome completed) (youtube_url : string)
  : M (option string) :=
  logger_info "Getting direct stream URL from yt-dlp (15s timeout)..." >>
  try_except
    (let* process :=
       create_subprocess_exec spawned ["yt-dlp"; "-g"; youtube_url] in
     match communicated with
     | Raise e => raise e
     | Ret c =>
         if negb (exit_status c =? 0) then
           let* err := decode (stderr c) in
           logger_error ("yt-dlp error: " +:+ err) >>
           ret None
         else
           let* out := decode (stdout c) in
           let stream_url :=
             last_item (PyStr.split_on "010"%char (PyStr.strip out)) in
           logger_info "Successfully got stream URL." >>
           ret (Some stream_url)
     end)
    (λ e, match e with
          | TimeoutError =>
              Some (logger_error "yt-dlp timed out." >> ret None)
          | _ =>
              if is_Exception e
              then Some (logger_error ("Error getting stream URL: "
                                       +:+ exn_str e) >> ret None)
              else None
          end).

(** The event loop records the exit of the child in the process object that
    [self.ffmpeg_process] refers to. *)
Definition process_exited (rc : Z) : M unit :=
  modify_self (λ s,
    set_ffmpeg_process
      ((λ p, {| pid := pid p; returncode := Some rc |}) <$> ffmpeg_process s)
      s).

(** [await asyncio.sleep(2)]: [slept] is how the sleep ends and, when it
    returns, the exit status of the child if it exited meanwhile. *)
Definition asyncio_sleep (slept : outcome (option Z)) : M unit :=
  match slept with
  | Raise e => raise e
  | Ret (Some rc) => process_exited rc
  | Ret None => ret tt
  end.

(** [_start_ffmpeg_process]. [errors] answers [communicate()] on the exited
    child with its standard error. *)
Definition _start_ffmpeg_process (spawned : outcome nat)
    (slept : outcome (option Z)) (errors : outcome (option string))
    (stream_url : string) : M unit :=
  let cmd := ["ffmpeg"; "-i"; stream_url;
              "-f"; "s16le"; "-ar"; "16000"; "-ac"; "1"; "-"] in
  logger_info "Starting FFmpeg to capture audio stream..." >>
  let* process := create_subprocess_exec spawned cmd in
  modify_self (set_ffmpeg_process (Some process)) >>
  asyncio_sleep slept >>
  let* s := get_self in
  match ffmpeg_process s ≫= returncode with
  | Some _ =>
      match errors with
      | Raise e => raise e
      | Ret err =>
          let* text := decode err in
          raise (RuntimeError ("FFmpeg failed to start: " +:+ text))
      end
  | None => logger_info "Audio stream capture started successfully."
  end.

(** [process.terminate()]: the signal is sent; [returncode] is not touched. *)
Definition terminate (p : Process) : M unit := emit (EvTerminate (pid p)).

(** [stop]. *)
Definition stop : M unit :=
  modify_self (set_is_running false) >>
  let* s := get_self in
  match ffmpeg_process s with
  | Some p =>
      match returncode p with
      | None => terminate p >> logger_info "FFmpeg process terminated."
      | Some _ => ret tt
      end
  | None => ret tt
  end.

(** The event loop reaps the producer while a coroutine is suspended:
    [exited] is the exit status of the child if it has exited meanwhile. A
    process exits once, so nothing is recorded for a process that has a
    [returncode], or when there is no process. *)
Definition event_loop_reaps (exited : option Z) : M unit :=
  let* s := get_self in
  match exited, ffmpeg_process s ≫= returncode with
  | Some rc, None => process_exited rc
  | _, _ => ret tt
  end.

(** [await m] after the producer was spawned. The event loop may record the
    exit of the producer at any suspension of [m]. The coroutines awaited
    this way ([_google_stt_stream], [server.wait_closed]) do not look at
    [returncode] and do not assign [self.ffmpeg_process], so the record is
    made when [m] is left, whichever way it is left. *)
Definition awaiting {A} (exited : option Z) (m : M A) : M A :=
  try_finally m (event_loop_reaps exited).

(** What the world answers during one call of [start]. After the spawn of
    the producer, every [await] of [start] has an answer for the exit of the
    producer: [env_ffmpeg_sleep] for the grace period, [env_stream_exit]
    for the recognition stream and [env_closed_exit] for the wait for the
    server to close. *)
Record Environment := {
  env_serve : outcome unit;
  env_ytdlp_spawn : outcome nat;
  env_ytdlp_communicate : outcome completed;
  env_ffmpeg_spawn : outcome nat;
  env_ffmpeg_sleep : outcome (option Z);
  env_ffmpeg_errors : outcome (option string);
  env_stt_open : outcome unit;
  env_stt_responses : list StreamingRecognizeResponse;
  env_stt_ending : option exn;
  env_stream_exit : option Z;
  env_wait_closed : outcome unit;
  env_closed_exit : option Z;
  env_time : nat → Z;
}.

(** [websockets.serve(...)]. *)
Definition websockets_serve (answer : outcome unit) (port : Z) : M unit :=
  emit (EvServe port) >>
  match answer with Ret _ => ret tt | Raise e => raise e end.

Definition server_close : M unit := emit EvServerClose.

Definition server_wait_closed (answer : outcome unit) : M unit :=
  emit EvServerWaitClosed >>
  match answer with Ret _ => ret tt | Raise e => raise e end.

(** Python's truth value of an [Optional[str]]. *)
Definition truthy (u : option string) : bool :=
  match u with
  | Some (String _ _) => true
  | _ => false
  end.

(** [start]. The two awaits that follow the spawn of the producer and
    precede a [stop], of the recognition stream and of the closing server,
    are [awaiting]: the producer may end by itself meanwhile. *)
Definition start (env : Environment) (youtube_url : string) : M unit :=
  modify_self (set_is_running true) >>
  logger_info
    "--- Starting Real-Time Betting System (Google Streaming API) ---" >>
  logger_info ("YouTube URL: " +:+ youtube_url) >>
  let* s := get_self in
  websockets_serve (env_serve env) (ws_port s) >>
  logger_info ("WebSocket server started on ws://localhost:"
               +:+ pretty (ws_port s)) >>
  try_finally
    (try_except
       (let* stream_url :=
          _get_stream_url (env_ytdlp_spawn env) (env_ytdlp_communicate env)
            youtube_url in
        (if truthy stream_url then ret tt
         else raise (RuntimeError "Failed to get stream URL.")) >>
        _start_ffmpeg_process (env_ffmpeg_spawn env) (env_ffmpeg_sleep env)
          (env_ffmpeg_errors env) (default "" stream_url) >>
        awaiting (env_stream_exit env)
          (_google_stt_stream (env_time env) (env_stt_open env)
             (env_stt_responses env) (env_stt_ending env)))
       (λ e, if is_Exception e
             then Some (logger_error ("System failed to start: "
                                      +:+ exn_str e))
             else None))
    (stop >>
     server_close >>
     awaiting (env_closed_exit env)
       (server_wait_closed (env_wait_closed env)) >>
     logger_info "--- System Shutting Down ---").

(** *** The entry point *)

(** The words [main] looks for. *)
Definition betting_keywords : list string :=
  ["bet"; "wager"; "odds"; "win"; "lose"; "money"; "cash"; "profit";
   "jackpot"; "bonus"; "multiplier"; "double"; "triple"; "all-in";
   "fold"; "call"; "raise"; "bluff"; "poker"; "blackjack"; "roulette";
   "hit"; "stand"; "bust"; "dealer"; "hand"; "card"; "ace"; "king"].

(** How [main] ends: [sys.exit] after a printed line, a failed construction
    of the system (the speech client is built in [__init__], before the
    [try]), or the run of the system it built. *)
Inductive main_result :=
| SysExit (printed : string) (status : Z)
| ConstructionFailed (e : exn)
| Completed (r : run unit).

(** The [except] clauses of [main]. *)
Definition main_handler (e : exn) : option (M unit) :=
  match e with
  | KeyboardInterrupt => Some (logger_info "Shutdown signal received.")
  | _ =>
      if is_Exception e
      then Some (logger_error ("An unhandled error occurred: " +:+ exn_str e))
      else None
  end.

(** [main]. [argv0 :: args] is [sys.argv]; [constructed] answers the
    construction of the speech client, [env] the calls of [start]. *)
Definition main (argv0 : string) (args : list string)
    (constructed : outcome unit) (env : Environment) : main_result :=
  match args with
  | [youtube_url] =>
      match constructed with
      | Raise e => ConstructionFailed e
      | Ret _ =>
          let system := __init__ betting_keywords 8765 in
          Completed
            (try_finally
               (try_except (start env youtube_url) main_handler)
               (stop >> logger_info "System has been shut down.")
               {| self := system; ticks := 0 |})
      end
  | _ =>
      SysExit ("Usage: python " +:+ argv0 +:+ " <youtube_live_url>") 1
  end.

(** * Observations

    Definitions the properties are stated with: the matcher as the
    specification words it, readings of the event list, and the worlds and
    answers of the worked examples. *)

(** ** The keyword matcher as the specification words it *)

(** Stripping all '.' and ',' characters, in one pass. *)
Fixpoint strip_punct (s : string) : string :=
  match s with
  | EmptyString => EmptyString
  | String c s' =>
      if (Ascii.eqb c "."%char || Ascii.eqb c ","%char)%bool
      then strip_punct s' else String c (strip_punct s')
  end.

(** The stripped, lowercased form under which a transcript token is
    compared. *)
Definition normal_form (t : string) : string := strip_punct (PyStr.lower t).

(** Lowercase the text, strip '.' and ',', split on whitespace. *)
Definition normalized_tokens (text : string) : list string :=
  PyStr.split (strip_punct (PyStr.lower text)).

(** The matcher of the specification: a set, the tokens that are keywords. *)
Definition KeywordMatcher (K : gset string) (text : string) : gset string :=
  list_to_set (normalized_tokens text) ∩ K.

(** ** Readings of the state and of the events *)

(** The process id of the producer when it is known and has not exited. *)
Definition live_producer (s : BettingSystem) : option nat :=
  match ffmpeg_process s with
  | Some p => match returncode p with None => Some (pid p) | Some _ => None end
  | None => None
  end.

(** The processes that were sent the termination signal, in order. *)
Definition terminations (evs : list event) : list nat :=
  omap (λ e, match e with EvTerminate p => Some p | _ => None end) evs.

(** What [stop] does to the world when [self] is [s]. *)
Definition stop_events (s : BettingSystem) : list event :=
  match live_producer s with
  | Some p => [EvTerminate p; EvLog INFO "FFmpeg process terminated."]
  | None => []
  end.

(** Whether the send to a client returns. *)
Definition delivers (send_answer : WebSocket → outcome unit) (c : WebSocket)
  : bool :=
  match send_answer c with Ret _ => true | Raise _ => false end.

(** One delivery of [payload] to each of [cs]. *)
Definition deliveries (payload : string) (cs : list WebSocket) : list event :=
  (λ c, EvSend c payload) <$> cs.

(** A world with three registered clients. *)
Definition three_clients : World :=
  {| self := set_clients {[1%nat; 2%nat; 3%nat]} (__init__ ["bet"] 8765);
     ticks := 0 |}.

(** The event of a final transcript "bet". *)
Definition bet_message : message :=
  {| msg_type := "transcription"; msg_timestamp := 0; msg_text := "bet";
     msg_keywords := ["bet"]; msg_is_final := true |}.


(** The broadcasts handed to the event loop, in order. *)
Definition submitted (evs : list event) : list message :=
  omap (λ e, match e with EvCreateTask m => Some m | _ => None end) evs.

(** The truth value of [result.alternatives]. *)
Definition has_alternative (x : StreamingRecognitionResult) : bool :=
  match alternatives x with [] => false | _ :: _ => true end.

(** [result.alternatives[0].transcript]. *)
Definition top_transcript (x : StreamingRecognitionResult) : string :=
  match alternatives x with [] => "" | top :: _ => transcript top end.

(** The messages [_process_stt_response] builds from the results [xs] when
    the clock has been read [tick] times. *)
Fixpoint messages_of (time_time : nat → Z) (s : BettingSystem) (tick : nat)
    (xs : list StreamingRecognitionResult) : list message :=
  match xs with
  | [] => []
  | x :: xs' =>
      if has_alternative x then
        {| msg_type := "transcription";
           msg_timestamp := time_time tick;
           msg_text := top_transcript x;
           msg_keywords := _find_keywords s (top_transcript x);
           msg_is_final := is_final x |}
        :: messages_of time_time s (S tick) xs'
      else messages_of time_time s tick xs'
  end.

(** A request that carries audio and nothing else. *)
Definition audio_only (r : StreamingRecognizeRequest) : Prop :=
  req_streaming_config r = None
  ∧ ∃ chunk, req_audio_content r = Some chunk ∧ chunk ≠ [].

(** The world right after [__init__]. *)
Definition idle_world : World :=
  {| self := __init__ ["bet"] 8765; ticks := 0 |}.

(** The resolver prints two URLs, the second one indented. *)
Definition two_lines : completed :=
  {| exit_status := 0;
     stdout := Some "https://video.example/v.m3u8
  https://audio.example/a.m3u8
";
     stderr := Some "" |}.

(** The result of [_get_stream_url], read off the two answers. *)
Definition resolved (spawned : outcome nat) (communicated : outcome completed)
  : outcome (option string) :=
  match spawned, communicated with
  | Raise e, _ | Ret _, Raise e => if is_Exception e then Ret None else Raise e
  | Ret _, Ret c =>
      match exit_status c =? 0, stdout c with
      | true, Some out =>
          Ret (Some (last_item (PyStr.split_on "010"%char (PyStr.strip out))))
      | _, _ => Ret None
      end
  end.

(** The body of the [try] of [start]. *)
Definition start_body (env : Environment) (youtube_url : string) : M unit :=
  let* stream_url :=
    _get_stream_url (env_ytdlp_spawn env) (env_ytdlp_communicate env)
      youtube_url in
  (if truthy stream_url then ret tt
   else raise (RuntimeError "Failed to get stream URL.")) >>
  _start_ffmpeg_process (env_ffmpeg_spawn env) (env_ffmpeg_sleep env)
    (env_ffmpeg_errors env) (default "" stream_url) >>
  awaiting (env_stream_exit env)
    (_google_stt_stream (env_time env) (env_stt_open env)
       (env_stt_responses env) (env_stt_ending env)).

(** The [except Exception] clause of [start]. *)
Definition start_handler (e : exn) : option (M unit) :=
  if is_Exception e
  then Some (logger_error ("System failed to start: " +:+ exn_str e))
  else None.

(** The [finally] clause of [start]. *)
Definition start_cleanup (env : Environment) : M unit :=
  stop >>
  server_close >>
  awaiting (env_closed_exit env)
    (server_wait_closed (env_wait_closed env)) >>
  logger_info "--- System Shutting Down ---".

(** What the bind of [websockets.serve] on localhost answers when sockets
    listen on the ports [held] and nothing else goes wrong: a fixed port
    that is held is refused with [OSError] (EADDRINUSE); port 0 asks the
    system for a free port, which it gives. *)
Definition bind_answer (held : gset Z) (port : Z) : outcome unit :=
  if decide (port ≠ 0 ∧ port ∈ held)
  then Raise (OSError "[Errno 98] address already in use")
  else Ret tt.

(** A world in which a run is active at the default port: the flag is set,
    producer 7 is alive, and the server of the run listens on port 8765. *)
Definition running_world : World :=
  {| self := set_ffmpeg_process (Some {| pid := 7; returncode := None |})
               (set_is_running true (__init__ ["bet"] 8765));
     ticks := 0 |}.

(** A world in which a run is active and the port was left to the system
    ([ws_port = 0]): the flag is set, producer 7 is alive, and the server of
    the run listens on the port it was given, say 49152. *)
Definition running_on_system_port : World :=
  {| self := set_ffmpeg_process (Some {| pid := 7; returncode := None |})
               (set_is_running true (__init__ ["bet"] 0));
     ticks := 0 |}.

(** Every answer is a success; the recognition stream ends at once. *)
Definition all_succeeds : Environment :=
  {| env_serve := Ret tt;
     env_ytdlp_spawn := Ret 41%nat;
     env_ytdlp_communicate :=
       Ret {| exit_status := 0; stdout := Some "https://a.example/a.m3u8";
              stderr := Some "" |};
     env_ffmpeg_spawn := Ret 42%nat;
     env_ffmpeg_sleep := Ret None;
     env_ffmpeg_errors := Ret (Some "");
     env_stt_open := Ret tt;
     env_stt_responses := [];
     env_stt_ending := None;
     env_stream_exit := None;
     env_wait_closed := Ret tt;
     env_closed_exit := None;
     env_time := λ _, 0 |}.

(** The answers to a call of [start] for [port] made while sockets listen
    on the ports [held]: the bind is answered by [bind_answer]; every other
    call succeeds and the recognition stream ends at once. *)
Definition second_start (held : gset Z) (port : Z) : Environment :=
  {| env_serve := bind_answer held port;
     env_ytdlp_spawn := Ret 41%nat;
     env_ytdlp_communicate :=
       Ret {| exit_status := 0; stdout := Some "https://a.example/a.m3u8";
              stderr := Some "" |};
     env_ffmpeg_spawn := Ret 42%nat;
     env_ffmpeg_sleep := Ret None;
     env_ffmpeg_errors := Ret (Some "");
     env_stt_open := Ret tt;
     env_stt_responses := [];
     env_stt_ending := None;
     env_stream_exit := None;
     env_wait_closed := Ret tt;
     env_closed_exit := None;
     env_time := λ _, 0 |}.

(** The programs that were spawned, with their process ids, in order. *)
Definition spawns (evs : list event) : list (string * nat) :=
  omap (λ e, match e with
             | EvSpawn (program :: _) p => Some (program, p)
             | _ => None
             end) evs.

(** The call that opens a recognition session. *)
Definition opens_session (e : event) : bool :=
  match e with EvStreamingRecognize => true | _ => false end.

(** How many recognition sessions the events open. *)
Definition sessions_opened (evs : list event) : nat :=
  length (filter (λ e, opens_session e) evs).

(** The events of [start] up to the bind of the server. *)
Definition start_prelude (youtube_url : string) (port : Z) : list event :=
  [EvLog INFO
     "--- Starting Real-Time Betting System (Google Streaming API) ---";
   EvLog INFO ("YouTube URL: " +:+ youtube_url);
   EvServe port].

(** The log line after the bind. *)
Definition server_started (port : Z) : event :=
  EvLog INFO ("WebSocket server started on ws://localhost:" +:+ pretty port).

(** The events of the resolver: log lines, and the spawn of yt-dlp. *)
Definition resolver_event (e : event) : bool :=
  match e with
  | EvLog _ _ => true
  | EvSpawn (program :: _) _ => String.eqb program "yt-dlp"
  | _ => false
  end.




(** The error report of [start]. *)
Definition system_failed (msg : string) : event :=
  EvLog ERROR ("System failed to start: " +:+ msg).

(** The spawn of ffmpeg. *)
Definition is_producer_spawn (e : event) : bool :=
  match e with
  | EvSpawn (program :: _) _ => String.eqb program "ffmpeg"
  | _ => false
  end.


(** The resolver answers, the producer is spawned and has exited with
    status 1 when its grace period is over. *)
Definition producer_dies : Environment :=
  {| env_serve := Ret tt;
     env_ytdlp_spawn := Ret 41%nat;
     env_ytdlp_communicate :=
       Ret {| exit_status := 0; stdout := Some "https://a.example/a.m3u8";
              stderr := Some "" |};
     env_ffmpeg_spawn := Ret 42%nat;
     env_ffmpeg_sleep := Ret (Some 1);
     env_ffmpeg_errors := Ret (Some "Invalid data found");
     env_stt_open := Ret tt;
     env_stt_responses := [];
     env_stt_ending := None;
     env_stream_exit := None;
     env_wait_closed := Ret tt;
     env_closed_exit := None;
     env_time := λ _, 0 |}.

(** ** Assertions on runs *)

(** An assertion speaks of [self] and of the events performed so far. *)
Definition assertion : Type := BettingSystem → list event → Prop.

(** [m] turns [P] into [Q]: started where [P] holds, [m] is left, by return
    or by exception, where [Q] holds. *)
Definition turns {A} (P Q : assertion) (m : M A) : Prop :=
  ∀ w evs, P (self w) evs →
    Q (self (final (m w))) (evs ++ events (m w)).

(** [P] is strong enough for [Q]. *)
Definition implies (P Q : assertion) : Prop := ∀ s evs, P s evs → Q s evs.

(** The setup of the system is that of [s0]: keyword set, port, streaming
    configuration and registry. *)
Definition same_setup (s0 : BettingSystem) : assertion :=
  λ s _, keywords s = keywords s0
         ∧ ws_port s = ws_port s0
         ∧ streaming_config s = streaming_config s0
         ∧ clients s = clients s0.

(** No producer has been spawned. *)
Definition no_producer : assertion :=
  λ _ evs, Forall (λ e, is_producer_spawn e = false) evs.

(** Every producer that was spawned has been sent the termination signal,
    or is the process [self.ffmpeg_process] refers to. *)
Definition producer_owned : assertion :=
  λ s evs, ∀ cmd q, EvSpawn ("ffmpeg" :: cmd) q ∈ evs →
    EvTerminate q ∈ evs
    ∨ ∃ p, ffmpeg_process s = Some p ∧ pid p = q.

(** Every producer that was spawned has been sent the termination signal
    or is known to have exited. *)
Definition producer_settled : assertion :=
  λ s evs, ∀ cmd q, EvSpawn ("ffmpeg" :: cmd) q ∈ evs →
    EvTerminate q ∈ evs
    ∨ ∃ rc, ffmpeg_process s = Some {| pid := q; returncode := Some rc |}.

(** What [process_exited] does to [self]. *)
Definition record_exit (rc : Z) (s : BettingSystem) : BettingSystem :=
  set_ffmpeg_process
    ((λ p, {| pid := p.(pid); returncode := Some rc |}) <$> ffmpeg_process s) s.

(** What [event_loop_reaps] does to [self]: the exit is recorded for a
    producer that has no [returncode] yet. *)
Definition reaped (exited : option Z) (s : BettingSystem) : BettingSystem :=
  match exited, ffmpeg_process s ≫= returncode with
  | Some rc, None => record_exit rc s
  | _, _ => s
  end.

(** An assertion that survives everything the methods do except spawning and
    storing a producer: any other event, a change of the running flag, and
    the record of an exit. *)
Record stable (P : assertion) : Prop := {
  stable_event e s evs :
    is_producer_spawn e = false → P s evs → P s (evs ++ [e]);
  stable_running b s evs : P s evs → P (set_is_running b s) evs;
  stable_exit rc s evs : P s evs → P (record_exit rc s) evs;
}.

(** ** Readings of a processed response *)

(** Whether a result is final and its top transcript holds a keyword of
    [s]. *)
Definition detected (s : BettingSystem) (x : StreamingRecognitionResult)
  : bool :=
  is_final x
  && match _find_keywords s (top_transcript x) with
     | [] => false
     | _ :: _ => true
     end.

(** The text of the detection log line for a result. *)
Definition detection_line (s : BettingSystem) (x : StreamingRecognitionResult)
  : string :=
  top_transcript x +:+ " -> DETECTED: "
  +:+ join_words (_find_keywords s (top_transcript x)).

(** The events of [_process_stt_response] on the results [xs], the clock
    having been read [tick] times. *)
Fixpoint response_events (time_time : nat → Z) (s : BettingSystem)
    (tick : nat) (xs : list StreamingRecognitionResult) : list event :=
  match xs with
  | [] => []
  | x :: xs' =>
      if has_alternative x then
        EvCreateTask
          {| msg_type := "transcription";
             msg_timestamp := time_time tick;
             msg_text := top_transcript x;
             msg_keywords := _find_keywords s (top_transcript x);
             msg_is_final := is_final x |}
        :: (if detected s x then [EvLog INFO (detection_line s x)] else [])
        ++ response_events time_time s (S tick) xs'
      else response_events time_time s tick xs'
  end.

(** The lines logged at level INFO, in order. *)
Definition info_lines (evs : list event) : list string :=
  omap (λ e, match e with EvLog INFO t => Some t | _ => None end) evs.

(** The results that have an alternative. *)
Definition heard (xs : list StreamingRecognitionResult)
  : list StreamingRecognitionResult :=
  filter (λ x, has_alternative x) xs.

(** All the results of a list of responses, in order. *)
Definition all_results (responses : list StreamingRecognizeResponse)
  : list StreamingRecognitionResult :=
  responses ≫= results.

(** ** Readings of the request generator *)

(** An iteration of the audio loop that yields the chunk [c]. *)
Definition yields (c : bytes) : bool * read_answer := (true, ReadBytes c).

(** How the audio loop is left at the iterations [steps], when the first of
    them yields nothing. *)
Definition left_at (steps : list (bool * read_answer)) : generator_end :=
  match steps with
  | [] => Suspended
  | (false, _) :: _ => Exhausted
  | (true, ReadBytes _) :: _ => Exhausted
  | (true, ReadRaises CancelledError) :: _ => Exhausted
  | (true, ReadRaises e) :: _ => Raised e
  end.

(** The first iteration, if any, does not yield a chunk. *)
Definition stops (steps : list (bool * read_answer)) : Prop :=
  match steps with
  | (true, ReadBytes (_ :: _)) :: _ => False
  | _ => True
  end.

(** ** Readings of words *)

(** Every character of [s] satisfies [P]. *)
Fixpoint all_chars (P : ascii → bool) (s : string) : bool :=
  match s with
  | EmptyString => true
  | String c s' => P c && all_chars P s'
  end.

(** A character as the matcher can report it: not whitespace, not '.', not
    ',', and its own lowercase form. *)
Definition word_char (c : ascii) : bool :=
  negb (PyStr.is_space c)
  && negb (Ascii.eqb c "."%char) && negb (Ascii.eqb c ","%char)
  && Ascii.eqb (PyStr.lower_char c) c.

(** A word as the matcher can report it: non-empty and made of such
    characters. *)
Definition reportable (k : string) : bool :=
  negb (String.eqb k "") && all_chars word_char k.

(** ** Readings of lines *)

(** The lines before the last one, each followed by the separator. *)
Definition lines_before (sep : ascii) (l : list string) : string :=
  foldr (λ x acc, x +:+ String sep acc) "" l.

(** An event of the processing of a response: a submitted broadcast or a
    log line. *)
Definition reports (e : event) : bool :=
  match e with
  | EvCreateTask _ | EvLog _ _ => true
  | _ => false
  end.

(** A resolver that prints [out] and exits with status 0. *)
Definition printed (out : string) (err : option string) : completed :=
  {| exit_status := 0; stdout := Some out; stderr := err |}.

(** Two responses: an interim "place your" and a final "place your bet";
    an empty response in between. *)
Definition bet_responses : list StreamingRecognizeResponse :=
  [ {| results := [ {| alternatives := [ {| transcript := "place your" |} ];
                       is_final := false |} ] |};
    {| results := [] |};
    {| results := [ {| alternatives := [ {| transcript := "place your bet" |} ];
                       is_final := true |} ] |} ].

(** Every call succeeds and the recognition service answers with
    [bet_responses]. *)
Definition streams_bet : Environment :=
  {| env_serve := Ret tt;
     env_ytdlp_spawn := Ret 41%nat;
     env_ytdlp_communicate := Ret (printed "https://a.example/a.m3u8" (Some ""));
     env_ffmpeg_spawn := Ret 42%nat;
     env_ffmpeg_sleep := Ret None;
     env_ffmpeg_errors := Ret (Some "");
     env_stt_open := Ret tt;
     env_stt_responses := bet_responses;
     env_stt_ending := None;
     env_stream_exit := None;
     env_wait_closed := Ret tt;
     env_closed_exit := None;
     env_time := λ n, 1000 + Z.of_nat n |}.

(** The events of [start] between the bind of the server and the first
    response, when the resolver [p] prints the URL [stream_url] and the
    producer [q] is alive after the grace period. *)
Definition acquired (youtube_url : string) (p : nat) (stream_url : string)
    (q : nat) : list event :=
  [EvLog INFO "Getting direct stream URL from yt-dlp (15s timeout)...";
   EvSpawn ["yt-dlp"; "-g"; youtube_url] p;
   EvLog INFO "Successfully got stream URL.";
   EvLog INFO "Starting FFmpeg to capture audio stream...";
   EvSpawn ["ffmpeg"; "-i"; stream_url; "-f"; "s16le"; "-ar"; "16000";
            "-ac"; "1"; "-"] q;
   EvLog INFO "Audio stream capture started successfully.";
   EvStreamingRecognize;
   EvLog INFO "Streaming audio to Google STT..."].

(** How a stream that ends with [ending] leaves the [try] of [start]. *)
Definition stream_end (ending : option exn) : outcome unit :=
  match ending with None => Ret tt | Some e => Raise e end.

(** The error report of [start] for a stream that ends with [ending]: one
    line when the stream fails with an [Exception]. *)
Definition stream_report (ending : option exn) : list event :=
  match ending with
  | Some e => if is_Exception e then [system_failed (exn_str e)] else []
  | None => []
  end.

(** The events of the [finally] clause of [start] when the producer [q]
    was alive at the start of the stream, [exited] is its exit status if it
    ended by itself during the stream, and the wait for the server answers
    [closed]: the signal is sent only to a producer that has not exited. *)
Definition shutdown (q : nat) (exited : option Z) (closed : outcome unit)
  : list event :=
  match exited with
  | None => [EvTerminate q; EvLog INFO "FFmpeg process terminated."]
  | Some _ => []
  end
  ++ [EvServerClose; EvServerWaitClosed]
  ++ match closed with
     | Ret _ => [EvLog INFO "--- System Shutting Down ---"]
     | Raise _ => []
     end.

(** The exit status the event loop has recorded when [start] is left: the
    one of the stream if the producer ended by itself, otherwise the one
    recorded during the wait for the server. *)
Definition recorded_exit (env : Environment) : option Z :=
  match env_stream_exit env with
  | Some rc => Some rc
  | None => env_closed_exit env
  end.

(** As [streams_bet], but the producer comes to the end of its input and
    exits with status 0 while the stream is awaited. *)
Definition producer_ends : Environment :=
  {| env_serve := Ret tt;
     env_ytdlp_spawn := Ret 41%nat;
     env_ytdlp_communicate := Ret (printed "https://a.example/a.m3u8" (Some ""));
     env_ffmpeg_spawn := Ret 42%nat;
     env_ffmpeg_sleep := Ret None;
     env_ffmpeg_errors := Ret (Some "");
     env_stt_open := Ret tt;
     env_stt_responses := bet_responses;
     env_stt_ending := None;
     env_stream_exit := Some 0;
     env_wait_closed := Ret tt;
     env_closed_exit := None;
     env_time := λ n, 1000 + Z.of_nat n |}.

(** How [start] is left after a stream that ends with [ending]: an
    exception of the wait for the server comes first, then an exception of
    the stream that is not an [Exception]. *)
Definition streamed_result (ending : option exn) (closed : outcome unit)
  : outcome unit :=
  match closed, ending with
  | Raise e', _ => Raise e'
  | Ret _, Some e => if is_Exception e then Ret tt else Raise e
  | Ret _, None => Ret tt
  end.

(** * Properties *)

(** ** Worked examples of the string functions and the matcher *)

Example split_demo :
  PyStr.split "  The odds,	are
 in. " = ["The"; "odds,"; "are"; "in."].
Proof. reflexivity. Qed.

Example strip_demo : PyStr.strip "  a b
" = "a b".
Proof. reflexivity. Qed.

Example split_on_demo : PyStr.split_on "."%char "a..b." = ["a"; ""; "b"; ""].
Proof. reflexivity. Qed.

Example lower_demo : PyStr.lower "All-IN, Bet." = "all-in, bet.".
Proof. reflexivity. Qed.

Example find_keywords_demo :
  let s := __init__ ["bet"; "odds"] 8765 in
  _find_keywords s "The odds are in your favor, place your bet now." ≡ₚ
    ["odds"; "bet"].
Proof. vm_compute. reflexivity. Qed.

(** ** Facts about the string functions *)

Section string_facts.

Import PyStr.

Lemma append_empty_l (s : string) : "" +:+ s = s.
Proof. reflexivity. Qed.

Lemma replace_dot_comma (s : string) :
  replace ","%char "" (replace "."%char "" s) = strip_punct s.
Proof.
  induction s as [|c s IH]; [done|].
  cbn [replace strip_punct].
  destruct (Ascii.eqb c ".") eqn:Hdot; cbn [orb].
  - by rewrite append_empty_l.
  - cbn [replace]. destruct (Ascii.eqb c ","); cbn [orb].
    + by rewrite append_empty_l.
    + by rewrite IH.
Qed.

Lemma words_of_normalized (text : string) :
  words_of text = normalized_tokens text.
Proof. unfold words_of, normalized_tokens. by rewrite replace_dot_comma. Qed.

Lemma is_space_lower_char (c : ascii) : is_space (lower_char c) = is_space c.
Proof. by destruct c as [[] [] [] [] [] [] [] []]. Qed.

Lemma lower_char_idemp (c : ascii) : lower_char (lower_char c) = lower_char c.
Proof. by destruct c as [[] [] [] [] [] [] [] []]. Qed.

Lemma lower_char_punct (c d : ascii) :
  d = "."%char ∨ d = ","%char →
  Ascii.eqb (lower_char c) d = Ascii.eqb c d.
Proof. by intros [-> | ->]; destruct c as [[] [] [] [] [] [] [] []]. Qed.

Lemma lower_idemp (s : string) : lower (lower s) = lower s.
Proof.
  induction s as [|c s IH]; [done|].
  cbn. by rewrite lower_char_idemp, IH.
Qed.

Lemma push_word_lower (w : string) (ws : list string) :
  push_word (lower w) (lower <$> ws) = lower <$> push_word w ws.
Proof. by destruct w. Qed.

Lemma scan_lower (s : string) :
  scan (lower s) = (lower (scan s).1, lower <$> (scan s).2).
Proof.
  induction s as [|c s IH]; [done|].
  cbn [lower scan]. rewrite IH, is_space_lower_char.
  destruct (scan s) as [w ws]; cbn [fst snd].
  destruct (is_space c); [|done].
  by rewrite push_word_lower.
Qed.

Lemma split_lower (s : string) : split (lower s) = lower <$> split s.
Proof.
  unfold split. rewrite scan_lower.
  destruct (scan s) as [w ws]; cbn [fst snd]. apply push_word_lower.
Qed.

Lemma push_word_filter (f : string → string) (w : string) (ws : list string) :
  f "" = "" →
  push_word (f w) (filter (λ x, x ≠ "") (f <$> ws))
  = filter (λ x, x ≠ "") (f <$> push_word w ws).
Proof.
  intros Hf. destruct w as [|c w]; cbn [push_word].
  - by rewrite Hf.
  - rewrite fmap_cons. destruct (f (String c w)) as [|d v] eqn:E; cbn [push_word].
    + by rewrite filter_cons_False by (intros H; by apply H).
    + by rewrite filter_cons_True.
Qed.

Lemma scan_strip_punct (s : string) :
  scan (strip_punct s)
  = (strip_punct (scan s).1,
     filter (λ x, x ≠ "") (strip_punct <$> (scan s).2)).
Proof.
  induction s as [|c s IH]; [done|].
  cbn [strip_punct scan].
  destruct (Ascii.eqb c "." || Ascii.eqb c ",")%bool eqn:Hp.
  - rewrite IH. destruct (scan s) as [w ws]; cbn [fst snd].
    assert (is_space c = false) as ->.
    { apply orb_true_iff in Hp as [H | H];
        apply Ascii.eqb_eq in H; by subst. }
    cbn [fst snd strip_punct]. by rewrite Hp.
  - cbn [scan]. rewrite IH. destruct (scan s) as [w ws]; cbn [fst snd].
    destruct (is_space c); cbn [fst snd].
    + f_equal. by apply push_word_filter.
    + cbn [strip_punct]. by rewrite Hp.
Qed.

Lemma split_strip_punct (s : string) :
  split (strip_punct s)
  = filter (λ x, x ≠ "") (strip_punct <$> split s).
Proof.
  unfold split. rewrite scan_strip_punct.
  destruct (scan s) as [w ws]; cbn [fst snd]. by apply push_word_filter.
Qed.

(** The words the matcher looks up are the transcript's tokens, each in
    its stripped, lowercased form, without those that stripping empties. *)
Lemma words_of_tokens (text : string) :
  words_of text = filter (λ x, x ≠ "") (normal_form <$> split text).
Proof.
  rewrite words_of_normalized. unfold normalized_tokens.
  by rewrite split_strip_punct, split_lower, <- list_fmap_compose.
Qed.

Lemma occurs_strip_punct (c : ascii) (s : string) :
  c = "."%char ∨ c = ","%char → occurs c (strip_punct s) = false.
Proof.
  intros Hc. induction s as [|d s IH]; [done|].
  cbn [strip_punct].
  destruct (Ascii.eqb d "." || Ascii.eqb d ",")%bool eqn:Hp; [done|].
  cbn [occurs]. rewrite IH, orb_false_r.
  apply orb_false_iff in Hp as [H1 H2]. by destruct Hc as [-> | ->].
Qed.

Lemma occurs_lower (c : ascii) (s : string) :
  c = "."%char ∨ c = ","%char → occurs c (lower s) = occurs c s.
Proof.
  intros Hc. induction s as [|d s IH]; [done|].
  cbn [lower occurs]. by rewrite IH, lower_char_punct.
Qed.

End string_facts.

(** ** The keyword matcher *)

Lemma elem_of_find_keywords (s : BettingSystem) (text w : string) :
  w ∈ _find_keywords s text ↔ w ∈ words_of text ∧ w ∈ keywords s.
Proof.
  unfold _find_keywords.
  rewrite elem_of_elements, elem_of_list_to_set, list_elem_of_filter.
  tauto.
Qed.

(** C1. For every text the matcher's output is, as a set, the deduplicated
    normalized tokens (lowercased, '.' and ',' stripped, split on
    whitespace) intersected with the keyword set; so it is a duplicate-free
    subset of the keyword set, empty for the empty text, and empty when no
    token is a keyword. *)
Theorem find_keywords_matches_spec (s : BettingSystem) (text : string) :
  list_to_set (_find_keywords s text) = KeywordMatcher (keywords s) text
  ∧ NoDup (_find_keywords s text)
  ∧ (∀ w, w ∈ _find_keywords s text → w ∈ keywords s)
  ∧ _find_keywords s "" = []
  ∧ ((∀ w, w ∈ normalized_tokens text → w ∉ keywords s) →
     _find_keywords s text = []).
Proof.
  split; [|split; [|split; [|split]]].
  - apply set_eq. intros w. unfold KeywordMatcher.
    rewrite elem_of_list_to_set, elem_of_find_keywords, words_of_normalized.
    set_solver.
  - apply NoDup_elements.
  - intros w Hw. by apply elem_of_find_keywords in Hw as [_ ?].
  - apply elem_of_nil_inv. intros w Hw.
    apply elem_of_find_keywords in Hw as [Hw _]. by apply elem_of_nil in Hw.
  - intros Hnone. apply elem_of_nil_inv. intros w Hw.
    apply elem_of_find_keywords in Hw as [Hw HK].
    rewrite words_of_normalized in Hw. by apply (Hnone w).
Qed.

(** The transcript token "vs." and the configured keyword "Vs." have the
    same stripped, lowercased form, and the matcher reports nothing: the
    configured keyword is lowercased but keeps its '.'. *)
Lemma punctuated_keyword_is_not_matched :
  normal_form "vs." = normal_form "Vs."
  ∧ "vs." ∈ PyStr.split "Red vs. Blue"
  ∧ _find_keywords (__init__ ["Vs."] 8765) "Red vs. Blue" = [].
Proof.
  split; [reflexivity|]. split; [|reflexivity].
  vm_compute. apply list_elem_of_In. simpl. tauto.
Qed.

(** C5, amended. Membership is case-insensitive on both sides and
    punctuation-insensitive on the transcript side only: a word is reported
    exactly when it is the stripped, lowercased, non-empty form of a
    transcript token and the lowercased (not stripped) form of a configured
    keyword; so a configured keyword that contains '.' or ',' matches no
    token. *)
Theorem keyword_match_normalizes_transcript_only
    (kws : list string) (port : Z) (text w : string) :
  (w ∈ _find_keywords (__init__ kws port) text ↔
     (∃ t, t ∈ PyStr.split text ∧ normal_form t = w ∧ w ≠ "")
     ∧ (∃ kw, kw ∈ kws ∧ PyStr.lower kw = w))
  ∧ (∀ kw t, (PyStr.occurs "." kw || PyStr.occurs "," kw)%bool = true →
       normal_form t ≠ PyStr.lower kw).
Proof.
  split.
  - rewrite elem_of_find_keywords, words_of_tokens, list_elem_of_filter.
    cbn [keywords __init__].
    rewrite elem_of_list_to_set, !list_elem_of_fmap.
    split.
    + intros [[Hne (t & -> & Ht)] (kw & Hkw & Hin)]. split; eauto.
    + intros [(t & Ht & <- & Hne) (kw & Hin & Hkw)]. split; eauto.
  - intros kw t Hp Heq.
    assert (∀ c, c = "."%char ∨ c = ","%char →
                 PyStr.occurs c kw = false) as Hno.
    { intros c Hc. rewrite <- (occurs_lower c kw Hc), <- Heq.
      by apply occurs_strip_punct. }
    rewrite !Hno in Hp by auto. done.
Qed.

(** ** Running the methods *)

Lemma bind_ret_run {A B} (m : M A) (k : A → M B) (w : World) (a : A) :
  result (m w) = Ret a →
  bind m k w = after (events (m w)) (k a (final (m w))).
Proof. unfold bind. destruct (m w) as [x w' evs]. by intros [= ->]. Qed.

Lemma bind_raise_run {A B} (m : M A) (k : A → M B) (w : World) (e : exn) :
  result (m w) = Raise e →
  bind m k w = Run (Raise e) (final (m w)) (events (m w)).
Proof. unfold bind. destruct (m w) as [x w' evs]. by intros [= ->]. Qed.

Lemma after_run {A} (evs : list event) (r : run A) :
  result (after evs r) = result r
  ∧ final (after evs r) = final r
  ∧ events (after evs r) = evs ++ events r.
Proof. by destruct r. Qed.

Lemma world_eta (w : World) : {| self := self w; ticks := ticks w |} = w.
Proof. by destruct w. Qed.

Lemma set_clients_same (s : BettingSystem) : set_clients (clients s) s = s.
Proof. by destruct s. Qed.

(** ** The subscriber registry *)

(** Removing a client that is not registered raises [KeyError]. *)
Lemma remove_of_non_member_raises :
  let w := {| self := set_clients {[1%nat]} (__init__ ["bet"] 8765);
              ticks := 0 |} in
  (2%nat ∉ clients (self w))
  ∧ clients_remove 2%nat w = Run (Raise KeyError) w [].
Proof. split; [set_solver|reflexivity]. Qed.

(** C4, amended. Registering is idempotent: a second [add] changes nothing,
    and [add] of a member leaves the state as it is. Unregistering a member
    removes it; unregistering a non-member leaves the set unchanged and
    raises [KeyError]. *)
Theorem registry_add_idempotent_remove_strict (w : World) (ws : WebSocket) :
  (clients_add ws >> clients_add ws) w = clients_add ws w
  ∧ (ws ∈ clients (self w) → clients_add ws w = Run (Ret tt) w [])
  ∧ (ws ∈ clients (self w) →
     clients_remove ws w
     = Run (Ret tt)
         {| self := set_clients (clients (self w) ∖ {[ws]}) (self w);
            ticks := ticks w |} [])
  ∧ (ws ∉ clients (self w) → clients_remove ws w = Run (Raise KeyError) w []).
Proof.
  split; [|split; [|split]].
  - unfold clients_add, bind, modify_self. cbn.
    by rewrite (assoc_L (∪)), union_idemp_L.
  - intros Hin. unfold clients_add, modify_self.
    assert ({[ws]} ∪ clients (self w) = clients (self w)) as ->
      by (apply subseteq_union_1_L; by apply singleton_subseteq_l).
    by rewrite set_clients_same, world_eta.
  - intros Hin. unfold clients_remove, bind, get_self. cbn.
    by rewrite decide_True.
  - intros Hout. unfold clients_remove, bind, get_self. cbn.
    by rewrite decide_False.
Qed.

(** ** Stopping *)

Lemma stop_run (w : World) :
  stop w
  = Run (Ret tt) {| self := set_is_running false (self w); ticks := ticks w |}
      (stop_events (self w)).
Proof.
  destruct w as [s t]. unfold stop, stop_events, live_producer, bind. cbn.
  by destruct (ffmpeg_process s) as [[p [rc|]]|].
Qed.

(** A second [stop] right after the first sends the signal again: the first
    call does not set [returncode]. *)
Lemma second_stop_terminates_again :
  let w := {| self := set_ffmpeg_process (Some {| pid := 7; returncode := None |})
                        (set_is_running true (__init__ ["bet"] 8765));
              ticks := 0 |} in
  terminations (events (stop w)) = [7%nat]
  ∧ terminations (events (stop (final (stop w)))) = [7%nat].
Proof. split; reflexivity. Qed.

(** C9, amended. [stop] never raises and always clears the running flag,
    touching nothing else of [self]; it sends the termination signal exactly
    when a producer process exists whose [returncode] is [None]. A second
    [stop] in a row does what the first did, so it terminates again while
    [returncode] is still [None]; once the event loop has recorded the exit,
    [stop] performs no termination. *)
Theorem stop_clears_flag_terminates_live_producer (w : World) :
  result (stop w) = Ret tt
  ∧ final (stop w)
    = {| self := set_is_running false (self w); ticks := ticks w |}
  ∧ events (stop w)
    = match live_producer (self w) with
      | Some p => [EvTerminate p; EvLog INFO "FFmpeg process terminated."]
      | None => []
      end
  ∧ events (stop (final (stop w))) = events (stop w)
  ∧ (∀ rc, events (stop (final (process_exited rc (final (stop w))))) = []).
Proof.
  rewrite !stop_run. cbn [result final events self ticks].
  split; [done|]. split; [done|]. split; [done|]. split; [done|].
  intros rc. rewrite stop_run. cbn [events].
  unfold process_exited, modify_self, stop_events, live_producer. cbn.
  by destruct (ffmpeg_process (self w)).
Qed.

(** ** Broadcasting *)

Section broadcast_facts.

Variable json_dumps : message → string.
Variable send_answer : WebSocket → outcome unit.

(** The gathered sends leave the state alone, never raise, and deliver to
    exactly the clients whose send returns. *)
Lemma gather_sends (payload : string) (cs : list WebSocket) (w : World) :
  ∃ rs, length rs = length cs
    ∧ gather_return_exceptions
        ((λ c, client_send send_answer c payload) <$> cs) w
      = Run (Ret rs) w (deliveries payload (filter (λ c, delivers send_answer c) cs)).
Proof.
  induction cs as [|c cs (rs & IHl & IH)]; [by exists []|].
  rewrite fmap_cons. cbn [gather_return_exceptions].
  unfold client_send at 1, deliveries, emit, raise.
  destruct (send_answer c) as [[]|e] eqn:Hc; unfold bind; rewrite IH.
  - rewrite filter_cons_True by (unfold delivers; rewrite Hc; exact I).
    exists (Ret tt :: rs). cbn. by rewrite IHl, app_nil_r.
  - rewrite filter_cons_False by (unfold delivers; rewrite Hc; intros []).
    exists (Raise e :: rs). cbn. by rewrite IHl, app_nil_r.
Qed.

Lemma broadcast_run (m : message) (w : World) :
  _broadcast json_dumps send_answer m w
  = Run (Ret tt) w
      (deliveries (json_dumps m)
         (filter (λ c, delivers send_answer c) (elements (clients (self w))))).
Proof.
  unfold _broadcast, bind, get_self.
  destruct (decide (clients (self w) = ∅)) as [Hempty|Hsome].
  - rewrite Hempty, elements_empty. done.
  - destruct (gather_sends (json_dumps m) (elements (clients (self w))) w)
      as (rs & _ & ->).
    cbn. by rewrite !app_nil_r.
Qed.

End broadcast_facts.




(** ** Processing the results of a response *)

Section response_facts.

Variable time_time : nat → Z.

Lemma submitted_app (evs evs' : list event) :
  submitted (evs ++ evs') = submitted evs ++ submitted evs'.
Proof. apply omap_app. Qed.

Lemma process_results_run (xs : list StreamingRecognitionResult) (w : World) :
  let r := _process_stt_response time_time {| results := xs |} w in
  result r = Ret tt
  ∧ self (final r) = self w
  ∧ submitted (events r) = messages_of time_time (self w) (ticks w) xs.
Proof.
  unfold _process_stt_response. cbn [results]. cbn zeta.
  match goal with |- context [for_each _ ?b] => set (body := b) end.
  assert (∀ x v,
    result (body x v) = Ret tt
    ∧ final (body x v)
      = (if has_alternative x
         then {| self := self v; ticks := S (ticks v) |} else v)
    ∧ submitted (events (body x v))
      = messages_of time_time (self v) (ticks v) [x]) as Hbody.
  { intros x v. subst body. cbn beta. cbn [messages_of].
    unfold has_alternative, top_transcript.
    destruct (alternatives x) as [|top alts]; [done|].
    unfold bind, get_self, read_clock, create_task_broadcast, emit. cbn.
    destruct (is_final x);
      destruct (_find_keywords (self v) (transcript top)); done. }
  clearbody body. revert w.
  induction xs as [|x xs IH]; intros w; [done|].
  cbn [for_each]. destruct (Hbody x w) as (Hr & Hf & He).
  rewrite (bind_ret_run _ _ _ tt Hr).
  destruct (after_run (events (body x w))
              (for_each xs body (final (body x w)))) as (-> & -> & ->).
  destruct (IH (final (body x w))) as (IHr & IHs & IHe).
  rewrite IHr, IHs, submitted_app, He, IHe, Hf.
  cbn [messages_of]. destruct (has_alternative x); done.
Qed.

Lemma messages_of_heard (s : BettingSystem) (tick : nat)
    (xs : list StreamingRecognitionResult) :
  let heard := filter (λ x, has_alternative x) xs in
  length (messages_of time_time s tick xs) = length heard
  ∧ msg_is_final <$> messages_of time_time s tick xs = is_final <$> heard
  ∧ msg_text <$> messages_of time_time s tick xs = top_transcript <$> heard
  ∧ msg_keywords <$> messages_of time_time s tick xs
    = (λ x, _find_keywords s (top_transcript x)) <$> heard.
Proof.
  cbn zeta. revert tick. induction xs as [|x xs IH]; intros tick; [done|].
  cbn [messages_of]. destruct (has_alternative x) eqn:Hx.
  - rewrite filter_cons_True by (rewrite Hx; exact I).
    destruct (IH (S tick)) as (H1 & H2 & H3 & H4).
    cbn. by rewrite H1, H2, H3, H4.
  - rewrite filter_cons_False by (rewrite Hx; intros []). apply IH.
Qed.

End response_facts.

(** A response whose only result has no alternative: one result, no
    broadcast. *)
Lemma result_without_alternative_is_not_broadcast :
  let response := {| results := [ {| alternatives := []; is_final := true |} ] |} in
  let r := _process_stt_response (λ _, 0) response three_clients in
  length (results response) = 1%nat
  ∧ submitted (events r) = [].
Proof. split; reflexivity. Qed.

(** C2, amended. One broadcast is submitted for every result that has at
    least one alternative, whether or not a keyword matched, and a result
    without alternatives is skipped: the submitted events are as many as
    those results and mirror, in order, their [is_final], the transcript of
    their top alternative, and the keywords found in it. *)
Theorem every_result_with_alternative_is_broadcast
    (time_time : nat → Z) (response : StreamingRecognizeResponse) (w : World) :
  let r := _process_stt_response time_time response w in
  let heard := filter (λ x, has_alternative x) (results response) in
  result r = Ret tt
  ∧ length (submitted (events r)) = length heard
  ∧ msg_is_final <$> submitted (events r) = is_final <$> heard
  ∧ msg_text <$> submitted (events r) = top_transcript <$> heard
  ∧ msg_keywords <$> submitted (events r)
    = (λ x, _find_keywords (self w) (top_transcript x)) <$> heard.
Proof.
  destruct response as [xs]. cbn zeta. cbn [results].
  destruct (process_results_run time_time xs w) as (Hr & _ & He).
  cbn zeta in Hr, He. rewrite He. split; [done|].
  apply messages_of_heard.
Qed.

(** ** The request sequence of a session *)

Lemma audio_requests_audio_only (steps : list (bool * read_answer)) :
  Forall audio_only (audio_requests steps).1.
Proof.
  induction steps as [|[running answer] steps IH]; cbn; [constructor|].
  destruct running; [|constructor].
  destruct answer as [[|b chunk]|e].
  - constructor.
  - destruct (audio_requests steps) as [rs ending]. cbn in *.
    constructor; [|done]. split; [done|]. by exists (b :: chunk).
  - destruct e; constructor.
Qed.

(** C6. Whatever the audio source and the running flag do, the requests of
    a session start with one request that carries the streaming
    configuration (LINEAR16, 16000 Hz, a language code, interim results on)
    and no audio, and every later request carries audio only. *)
Theorem request_generator_config_then_audio
    (s : BettingSystem) (steps : list (bool * read_answer)) :
  streaming_config s = _get_streaming_config →
  ∃ first rest,
    (request_generator s steps).1 = first :: rest
    ∧ req_audio_content first = None
    ∧ (∃ c, req_streaming_config first = Some c
          ∧ sample_rate_hertz (config c) = 16000
          ∧ encoding (config c) = LINEAR16
          ∧ language_code (config c) = "en-US"
          ∧ interim_results c = true)
    ∧ Forall audio_only rest.
Proof.
  intros Hconfig. unfold request_generator.
  pose proof (audio_requests_audio_only steps) as Haudio.
  destruct (audio_requests steps) as [rs ending]. cbn in *.
  exists (config_request (streaming_config s)), rs.
  split; [done|]. split; [done|]. split; [|done].
  exists (streaming_config s). by rewrite Hconfig.
Qed.

Lemma request_generator_config_then_audio_witness :
  ∃ first rest,
    (request_generator (__init__ ["bet"] 8765)
       [(true, ReadBytes [Byte.x01; Byte.x02]);
        (true, ReadBytes [Byte.x03]);
        (true, ReadBytes [])]).1 = first :: rest
    ∧ req_audio_content first = None
    ∧ (∃ c, req_streaming_config first = Some c
          ∧ sample_rate_hertz (config c) = 16000
          ∧ encoding (config c) = LINEAR16
          ∧ language_code (config c) = "en-US"
          ∧ interim_results c = true)
    ∧ Forall audio_only rest.
Proof.
  apply (request_generator_config_then_audio (__init__ ["bet"] 8765)).
  reflexivity.
Defined.

Example request_generator_demo :
  request_generator (__init__ ["bet"] 8765)
    [(true, ReadBytes [Byte.x01; Byte.x02]);
     (true, ReadBytes [Byte.x03]);
     (false, ReadBytes [Byte.x04])]
  = ([config_request _get_streaming_config;
      audio_request [Byte.x01; Byte.x02];
      audio_request [Byte.x03]], Exhausted).
Proof. reflexivity. Qed.

(** ** Resolving the stream URL *)

Lemma split_on_fields (sep : ascii) (s : string) :
  PyStr.split_on sep s ≠ []
  ∧ Forall (λ field, PyStr.occurs sep field = false) (PyStr.split_on sep s).
Proof.
  induction s as [|c s [IHne IH]]; cbn [PyStr.split_on].
  - split; [done|]. by repeat constructor.
  - destruct (Ascii.eqb c sep) eqn:Hc.
    + split; [done|]. by constructor.
    + destruct (PyStr.split_on sep s) as [|w ws]; [done|].
      split; [done|]. inversion IH; subst.
      constructor; [|done]. cbn. by rewrite Hc.
Qed.

Lemma last_item_no_separator (sep : ascii) (s : string) :
  PyStr.occurs sep (last_item (PyStr.split_on sep s)) = false.
Proof.
  destruct (split_on_fields sep s) as [Hne Hall].
  unfold last_item. destruct (last (PyStr.split_on sep s)) as [x|] eqn:Hlast.
  - cbn. rewrite Forall_forall in Hall. apply Hall.
    apply last_Some in Hlast as [l' ->]. set_solver.
  - by apply last_None in Hlast.
Qed.

(** A cancellation that arrives while the resolver is awaited leaves
    [_get_stream_url] as an exception; and the last line of the output is
    returned with its leading blanks. *)
Lemma cancellation_leaves_get_stream_url :
  result (_get_stream_url (Ret 41%nat) (Raise CancelledError)
            "https://youtu.be/live" idle_world)
  = Raise CancelledError
  ∧ result (_get_stream_url (Ret 41%nat) (Ret two_lines)
              "https://youtu.be/live" idle_world)
    = Ret (Some "  https://audio.example/a.m3u8").
Proof. split; reflexivity. Qed.

Lemma get_stream_url_run (spawned : outcome nat)
    (communicated : outcome completed) (youtube_url : string) (w : World) :
  result (_get_stream_url spawned communicated youtube_url w)
  = resolved spawned communicated
  ∧ final (_get_stream_url spawned communicated youtube_url w) = w.
Proof.
  unfold _get_stream_url, resolved, try_except, bind, create_subprocess_exec.
  destruct spawned as [p|e1]; [destruct communicated as [c|e2]|].
  - cbn. destruct (exit_status c =? 0); cbn.
    + by destruct (stdout c).
    + by destruct (stderr c); destruct (stdout c).
  - by destruct e2.
  - by destruct e1.
Qed.

(** C10, amended. [_get_stream_url] leaves the state untouched and
    propagates no exception of class [Exception]: if the spawn or the
    awaited communication raises one (the 15 s timeout included), or the
    resolver exits with a non-zero status, or its output does not decode,
    the result is [None]. The only exceptions that reach the caller are
    those outside [Exception] (cancellation, keyboard interrupt). On success
    the result is the last newline-separated field of the
    whitespace-stripped output; it contains no newline. *)
Theorem get_stream_url_catches_exceptions
    (spawned : outcome nat) (communicated : outcome completed)
    (youtube_url : string) (w : World) :
  let r := _get_stream_url spawned communicated youtube_url w in
  let raised (e : exn) :=
    spawned = Raise e ∨ ((∃ p, spawned = Ret p) ∧ communicated = Raise e) in
  final r = w
  ∧ (∀ e, result r = Raise e ↔ raised e ∧ is_Exception e = false)
  ∧ (∀ e, raised e → is_Exception e = true → result r = Ret None)
  ∧ (∀ p c, spawned = Ret p → communicated = Ret c →
       exit_status c ≠ 0 ∨ stdout c = None → result r = Ret None)
  ∧ (∀ p c out, spawned = Ret p → communicated = Ret c →
       exit_status c = 0 → stdout c = Some out →
       let url := last_item (PyStr.split_on "010"%char (PyStr.strip out)) in
       result r = Ret (Some url) ∧ PyStr.occurs "010"%char url = false).
Proof.
  cbn zeta.
  destruct (get_stream_url_run spawned communicated youtube_url w) as [-> ->].
  split; [done|]. unfold resolved. split; [|split; [|split]].
  - intros e. split.
    + destruct spawned as [p|e1]; [destruct communicated as [c|e2]|].
      * by destruct (exit_status c =? 0), (stdout c).
      * destruct (is_Exception e2) eqn:He2; [done|]. intros [= <-]. eauto.
      * destruct (is_Exception e1) eqn:He1; [done|]. intros [= <-]. eauto.
    + intros [[-> | [[p ->] ->]] ->]; done.
  - intros e [-> | [[p ->] ->]] ->; done.
  - intros p c -> -> [Hnz | Hnone].
    + destruct (Z.eqb_spec (exit_status c) 0); [done|]. by destruct (stdout c).
    + rewrite Hnone. by destruct (exit_status c =? 0).
  - intros p c out -> -> -> ->. split; [done|].
    apply last_item_no_separator.
Qed.

(** ** Starting *)

Lemma start_blocks (env : Environment) (youtube_url : string) :
  start env youtube_url
  = (modify_self (set_is_running true) >>
     logger_info
       "--- Starting Real-Time Betting System (Google Streaming API) ---" >>
     logger_info ("YouTube URL: " +:+ youtube_url) >>
     let* s := get_self in
     websockets_serve (env_serve env) (ws_port s) >>
     logger_info ("WebSocket server started on ws://localhost:"
                  +:+ pretty (ws_port s)) >>
     try_finally
       (try_except (start_body env youtube_url) start_handler)
       (start_cleanup env)).
Proof. reflexivity. Qed.

Lemma start_run (env : Environment) (youtube_url : string) (w : World) :
  let w1 := {| self := set_is_running true (self w); ticks := ticks w |} in
  let prelude := start_prelude youtube_url (ws_port (self w)) in
  start env youtube_url w
  = match env_serve env with
    | Raise e => Run (Raise e) w1 prelude
    | Ret _ =>
        after (prelude ++ [server_started (ws_port (self w))])
          (try_finally
             (try_except (start_body env youtube_url) start_handler)
             (start_cleanup env) w1)
    end.
Proof.
  cbn zeta. rewrite start_blocks.
  unfold websockets_serve, logger_info, modify_self, get_self, emit.
  unfold bind. destruct (env_serve env) as [[]|e]; [|reflexivity].
  cbn -[pretty try_finally String.append].
  destruct (try_finally _ _ _) as [x v evs]. reflexivity.
Qed.

Lemma get_stream_url_events (spawned : outcome nat)
    (communicated : outcome completed) (youtube_url : string) (w : World) :
  ∃ rest,
    events (_get_stream_url spawned communicated youtube_url w)
    = EvLog INFO "Getting direct stream URL from yt-dlp (15s timeout)..."
      :: rest
    ∧ Forall (λ e, resolver_event e = true) rest.
Proof.
  unfold _get_stream_url, try_except, bind, create_subprocess_exec.
  destruct spawned as [p|e1]; [destruct communicated as [c|e2]|].
  - cbn. destruct (exit_status c =? 0); cbn.
    + destruct (stdout c); cbn; eexists; (split; [done|]);
        by repeat constructor.
    + destruct (stderr c); cbn; eexists; (split; [done|]);
        by repeat constructor.
  - destruct e2; cbn; eexists; (split; [done|]); by repeat constructor.
  - destruct e1; cbn; eexists; (split; [done|]); by repeat constructor.
Qed.

(** *** Awaiting while the producer runs *)

Lemma event_loop_reaps_run (exited : option Z) (w : World) :
  event_loop_reaps exited w
  = Run (Ret tt) {| self := reaped exited (self w); ticks := ticks w |} [].
Proof.
  unfold event_loop_reaps, reaped, bind, get_self.
  cbn [result final events after].
  destruct exited as [rc|]; [|by destruct w].
  destruct (ffmpeg_process (self w) ≫= returncode); by destruct w.
Qed.

Lemma awaiting_run {A} (exited : option Z) (m : M A) (w : World) :
  awaiting exited m w
  = match m w with
    | Run x w' evs =>
        Run x {| self := reaped exited (self w'); ticks := ticks w' |} evs
    end.
Proof.
  unfold awaiting, try_finally. destruct (m w) as [x w' evs].
  by rewrite event_loop_reaps_run, app_nil_r.
Qed.

Lemma reaped_setup (exited : option Z) (s : BettingSystem) :
  is_running (reaped exited s) = is_running s
  ∧ clients (reaped exited s) = clients s
  ∧ keywords (reaped exited s) = keywords s
  ∧ ws_port (reaped exited s) = ws_port s
  ∧ streaming_config (reaped exited s) = streaming_config s.
Proof.
  unfold reaped. destruct exited as [rc|]; [|done].
  by destruct (ffmpeg_process s ≫= returncode).
Qed.


(** *** When acquisition fails *)








Ltac in_events :=
  rewrite ?elem_of_app, ?elem_of_cons;
  solve [repeat first [left; reflexivity | right]; reflexivity
        | auto 20 ].



Example producer_dies_events :
  events (start producer_dies "https://youtu.be/live" idle_world)
  = [EvLog INFO
       "--- Starting Real-Time Betting System (Google Streaming API) ---";
     EvLog INFO "YouTube URL: https://youtu.be/live";
     EvServe 8765;
     EvLog INFO "WebSocket server started on ws://localhost:8765";
     EvLog INFO "Getting direct stream URL from yt-dlp (15s timeout)...";
     EvSpawn ["yt-dlp"; "-g"; "https://youtu.be/live"] 41;
     EvLog INFO "Successfully got stream URL.";
     EvLog INFO "Starting FFmpeg to capture audio stream...";
     EvSpawn ["ffmpeg"; "-i"; "https://a.example/a.m3u8"; "-f"; "s16le";
              "-ar"; "16000"; "-ac"; "1"; "-"] 42;
     EvLog ERROR
       "System failed to start: FFmpeg failed to start: Invalid data found";
     EvServerClose; EvServerWaitClosed;
     EvLog INFO "--- System Shutting Down ---"].
Proof. vm_compute. reflexivity. Qed.

(** *** Starting while a run is active *)

Lemma bind_events_prefix {A B} (m : M A) (k : A → M B) (w : World) :
  ∃ rest, events (bind m k w) = events (m w) ++ rest.
Proof.
  unfold bind. destruct (m w) as [[a|e] v evs]; cbn.
  - destruct (k a v) as [x v' evs']. by exists evs'.
  - exists []. by rewrite app_nil_r.
Qed.

Lemma try_except_events_prefix {A} (body : M A) (h : exn → option (M A))
    (w : World) :
  ∃ rest, events (try_except body h w) = events (body w) ++ rest.
Proof.
  unfold try_except. destruct (body w) as [[a|e] v evs]; cbn.
  - exists []. by rewrite app_nil_r.
  - destruct (h e) as [m|]; cbn.
    + destruct (m v) as [x v' evs']. by exists evs'.
    + exists []. by rewrite app_nil_r.
Qed.

Lemma try_finally_events_prefix {A} (body : M A) (fin : M unit) (w : World) :
  ∃ rest, events (try_finally body fin w) = events (body w) ++ rest.
Proof.
  unfold try_finally. destruct (body w) as [x v evs]; cbn.
  destruct (fin v) as [[[]|e] v' evs']; by exists evs'.
Qed.

(** A start while a run is active and the port is left to the system
    ([ws_port = 0]): the server of the active run listens on the port it
    was given, the bind of the second call gets another one, and nothing
    rejects the call. It resolves the URL, spawns a second producer and
    opens a second session; the second producer replaces the first in
    [self.ffmpeg_process], so the first is neither signalled nor
    remembered. *)
Lemma start_while_running_begins_second_run :
  let w := running_on_system_port in
  let r := start (second_start {[49152]} (ws_port (self w)))
             "https://youtu.be/live" w in
  is_running (self w) = true
  ∧ live_producer (self w) = Some 7%nat
  ∧ env_serve (second_start {[49152]} (ws_port (self w))) = Ret tt
  ∧ spawns (events r) = [("yt-dlp", 41%nat); ("ffmpeg", 42%nat)]
  ∧ sessions_opened (events r) = 1%nat
  ∧ terminations (events r) = [42%nat]
  ∧ pid <$> ffmpeg_process (self (final r)) = Some 42%nat.
Proof. vm_compute. repeat split. Qed.

(** At the default port the same call is stopped by the bind, not by a
    check of the state: the server of the active run holds port 8765, the
    bind raises [OSError], and [start] is left before its [try] with
    nothing spawned and the world as it was. *)
Example start_on_held_port_is_refused :
  let r := start (second_start {[8765]} (ws_port (self running_world)))
             "https://youtu.be/live" running_world in
  result r = Raise (OSError "[Errno 98] address already in use")
  ∧ final r = running_world
  ∧ spawns (events r) = []
  ∧ sessions_opened (events r) = 0%nat.
Proof. vm_compute. repeat split. Qed.

(** C7, amended. [start] does not look at the state it is called in: it
    sets the running flag unconditionally, so a call made while the flag is
    already set runs exactly as a call made while it is clear; in every
    state it goes on to bind the server. Only the bind can stop a call made
    while a run is active: at a fixed port on which a socket listens the
    bind raises [OSError] and [start] is left at once, before its [try],
    with the flag set and nothing acquired; where the bind succeeds (port
    0, or a port nobody holds) [start] begins acquisition by resolving the
    URL. *)
Theorem start_does_not_check_state
    (env : Environment) (youtube_url : string) (w : World) (b : bool) :
  start env youtube_url
    {| self := set_is_running b (self w); ticks := ticks w |}
  = start env youtube_url w
  ∧ (∃ rest, events (start env youtube_url w)
             = start_prelude youtube_url (ws_port (self w)) ++ rest)
  ∧ (env_serve env = Ret tt →
     ∃ rest, events (start env youtube_url w)
             = start_prelude youtube_url (ws_port (self w))
               ++ server_started (ws_port (self w))
               :: EvLog INFO
                    "Getting direct stream URL from yt-dlp (15s timeout)..."
               :: rest)
  ∧ (∀ held, env_serve env = bind_answer held (ws_port (self w)) →
       (ws_port (self w) ≠ 0 ∧ ws_port (self w) ∈ held →
        start env youtube_url w
        = Run (Raise (OSError "[Errno 98] address already in use"))
            {| self := set_is_running true (self w); ticks := ticks w |}
            (start_prelude youtube_url (ws_port (self w))))
       ∧ (ws_port (self w) = 0 ∨ ws_port (self w) ∉ held →
          ∃ rest, events (start env youtube_url w)
                  = start_prelude youtube_url (ws_port (self w))
                    ++ server_started (ws_port (self w))
                    :: EvLog INFO
                         "Getting direct stream URL from yt-dlp (15s timeout)..."
                    :: rest)).
Proof.
  assert (env_serve env = Ret tt →
          ∃ rest, events (start env youtube_url w)
                  = start_prelude youtube_url (ws_port (self w))
                    ++ server_started (ws_port (self w))
                    :: EvLog INFO
                         "Getting direct stream URL from yt-dlp (15s timeout)..."
                    :: rest) as Hbegin; [|split; [|split; [|split]]].
  2: by rewrite !start_run.
  2: { rewrite start_run. destruct (env_serve env) as [[]|e].
       + rewrite (proj2 (proj2 (after_run _ _))), <- app_assoc. eauto.
       + exists []. by rewrite app_nil_r. }
  2: exact Hbegin.
  2: { intros held Hserve. unfold bind_answer in Hserve. split.
       - intros Hheld. rewrite decide_True in Hserve by done.
         by rewrite start_run, Hserve.
       - intros Hfree. apply Hbegin.
         rewrite decide_False in Hserve; [done|].
         intros [Hport Hin]. by destruct Hfree. }
  - intros Hserve. rewrite start_run, Hserve.
    rewrite (proj2 (proj2 (after_run _ _))), <- app_assoc.
    set (w1 := {| self := set_is_running true (self w); ticks := ticks w |}).
    destruct (try_finally_events_prefix
                (try_except (start_body env youtube_url) start_handler)
                (start_cleanup env) w1) as [r1 ->].
    destruct (try_except_events_prefix (start_body env youtube_url)
                start_handler w1) as [r2 ->].
    unfold start_body at 1.
    destruct (bind_events_prefix
                (_get_stream_url (env_ytdlp_spawn env)
                   (env_ytdlp_communicate env) youtube_url)
                (λ stream_url,
                   (if truthy stream_url then ret tt
                    else raise (RuntimeError "Failed to get stream URL.")) >>
                   _start_ffmpeg_process (env_ffmpeg_spawn env)
                     (env_ffmpeg_sleep env) (env_ffmpeg_errors env)
                     (default "" stream_url) >>
                   awaiting (env_stream_exit env)
                     (_google_stt_stream (env_time env) (env_stt_open env)
                        (env_stt_responses env) (env_stt_ending env)))
                w1) as [r3 ->].
    destruct (get_stream_url_events (env_ytdlp_spawn env)
                (env_ytdlp_communicate env) youtube_url w1)
      as (rest & -> & _).
    eexists. cbn. rewrite <- !app_assoc. cbn. reflexivity.
Qed.

(** ** Further properties *)

(** A broadcast with no registered subscriber returns normally and attempts
    no delivery. *)
Theorem broadcast_without_subscribers
    (json_dumps : message → string) (send_answer : WebSocket → outcome unit)
    (m : message) (s : BettingSystem) (t : nat) :
  let w := {| self := set_clients ∅ s; ticks := t |} in
  _broadcast json_dumps send_answer m w = Run (Ret tt) w [].
Proof.
  cbn zeta. rewrite broadcast_run. cbn [self clients set_clients].
  by rewrite elements_empty.
Qed.

(** The connection handler registers the client and, when the wait for the
    close ends (normally or by an exception), has unregistered it again;
    an exception of the wait goes on to the caller. *)
Theorem websocket_handler_unregisters
    (ended : outcome unit) (websocket : WebSocket) (w : World) :
  let wait_closed := match ended with Ret _ => ret tt | Raise e => raise e end in
  let r := _websocket_handler wait_closed websocket w in
  result r = ended
  ∧ clients (self (final r)) = clients (self w) ∖ {[websocket]}.
Proof.
  cbn zeta. unfold _websocket_handler, try_finally, bind, clients_add,
    clients_remove, logger_info, emit, modify_self, get_self.
  destruct ended as [[]|e]; cbn;
    (rewrite decide_True by (apply elem_of_union_l; by apply elem_of_singleton));
    cbn; (split; [done|]);
    apply set_eq; intros x;
    rewrite !elem_of_difference, elem_of_union; tauto.
Qed.

(** Once the running flag is clear, the response loop processes no further
    response: nothing is submitted for broadcast. *)
Theorem no_broadcast_after_stop
    (time_time : nat → Z) (response : StreamingRecognizeResponse)
    (responses : list StreamingRecognizeResponse) (ending : option exn)
    (s : BettingSystem) (t : nat) :
  let w := {| self := set_is_running false s; ticks := t |} in
  consume_responses time_time (response :: responses) ending w
  = Run (Ret tt) w [].
Proof. reflexivity. Qed.

(** ** Reasoning with assertions *)

Section assertion_rules.

Context {A B : Type}.
Implicit Types P Q R : assertion.

Lemma turns_ret P (a : A) : turns P P (ret a).
Proof. intros w evs H. cbn. by rewrite app_nil_r. Qed.

Lemma turns_raise P (e : exn) : turns P P (@raise A e).
Proof. intros w evs H. cbn. by rewrite app_nil_r. Qed.

Lemma turns_get_self P : turns P P get_self.
Proof. intros w evs H. cbn. by rewrite app_nil_r. Qed.

Lemma turns_weaken P P' Q Q' (m : M A) :
  implies P' P → implies Q Q' → turns P Q m → turns P' Q' m.
Proof. intros HP HQ Hm w evs H. apply HQ, Hm, HP, H. Qed.

Lemma turns_bind P Q R (m : M A) (k : A → M B) :
  turns P Q m → (∀ a, turns Q R (k a)) → implies Q R →
  turns P R (bind m k).
Proof.
  intros Hm Hk HQR w evs H. specialize (Hm w evs H). unfold bind.
  destruct (m w) as [[a|e] w' evs']; cbn in *.
  - specialize (Hk a w' _ Hm). destruct (k a w') as [x w'' evs''].
    cbn in *. by rewrite (assoc_L (++)).
  - by apply HQR.
Qed.

Lemma turns_try_except P Q R (body : M A) (handler : exn → option (M A)) :
  turns P Q body →
  (∀ e h, handler e = Some h → turns Q R h) →
  implies Q R →
  turns P R (try_except body handler).
Proof.
  intros Hb Hh HQR w evs H. specialize (Hb w evs H). unfold try_except.
  destruct (body w) as [[a|e] w' evs']; cbn in *; [by apply HQR|].
  destruct (handler e) as [h|] eqn:He; [|by apply HQR].
  specialize (Hh e h He w' _ Hb). destruct (h w') as [x w'' evs''].
  cbn in *. by rewrite (assoc_L (++)).
Qed.

Lemma turns_try_finally P Q R (body : M A) (fin : M unit) :
  turns P Q body → turns Q R fin → turns P R (try_finally body fin).
Proof.
  intros Hb Hf w evs H. specialize (Hb w evs H). unfold try_finally.
  destruct (body w) as [x w' evs']; cbn in *.
  specialize (Hf w' _ Hb).
  destruct (fin w') as [[[]|e] w'' evs'']; cbn in *;
    by rewrite (assoc_L (++)).
Qed.

End assertion_rules.

Lemma turns_seq {A B} (P : assertion) (m : M A) (k : A → M B) :
  turns P P m → (∀ a, turns P P (k a)) → turns P P (bind m k).
Proof. intros Hm Hk. apply (turns_bind P P P); [done..|by intros ??]. Qed.

Lemma turns_for_each {A} (P : assertion) (xs : list A) (body : A → M unit) :
  (∀ x, turns P P (body x)) → turns P P (for_each xs body).
Proof.
  intros Hbody. induction xs as [|x xs IH]; [apply turns_ret|].
  cbn [for_each]. by apply turns_seq.
Qed.

Lemma turns_emit (P : assertion) (e : event) :
  (∀ s evs, P s evs → P s (evs ++ [e])) → turns P P (emit e).
Proof. intros He w evs H. by apply He. Qed.

Lemma turns_modify_self (P : assertion) (f : BettingSystem → BettingSystem) :
  (∀ s evs, P s evs → P (f s) evs) → turns P P (modify_self f).
Proof. intros Hf w evs H. cbn. rewrite app_nil_r. by apply Hf. Qed.

(** ** What the methods keep *)

Ltac turns_atoms :=
  unfold logger_info, logger_error, terminate, server_close,
    create_task_broadcast.

Ltac turns_step H :=
  first
    [ apply turns_ret | apply turns_raise | apply turns_get_self
    | apply turns_seq; [|intros ?]
    | apply turns_emit; intros ? ?; by apply (stable_event _ H)
    | apply turns_modify_self; intros ? ?; by apply (stable_running _ H)
    | match goal with
      | |- turns _ _ (match ?x with _ => _ end) => destruct x
      | |- turns _ _ (if ?x then _ else _) => destruct x
      end ].

Section kept.

Variable P : assertion.
Hypothesis HP : stable P.

Lemma stop_keeps : turns P P stop.
Proof. unfold stop. turns_atoms. repeat turns_step HP. Qed.

Lemma get_stream_url_keeps (spawned : outcome nat)
    (communicated : outcome completed) (youtube_url : string) :
  turns P P (_get_stream_url spawned communicated youtube_url).
Proof.
  unfold _get_stream_url, create_subprocess_exec, decode. turns_atoms.
  apply turns_seq; [by repeat turns_step HP|intros _].
  apply (turns_try_except P P P); [| |by intros ??].
  - repeat turns_step HP.
  - intros e h He. destruct e; cbn in He; simplify_eq;
      repeat turns_step HP.
Qed.

Lemma read_clock_keeps (time_time : nat → Z) : turns P P (read_clock time_time).
Proof. intros w evs H. cbn. by rewrite app_nil_r. Qed.

Lemma process_stt_response_keeps (time_time : nat → Z)
    (response : StreamingRecognizeResponse) :
  turns P P (_process_stt_response time_time response).
Proof.
  unfold _process_stt_response. apply turns_for_each. intros x.
  turns_atoms.
  repeat first [ apply read_clock_keeps | turns_step HP ].
Qed.

Lemma consume_responses_keeps (time_time : nat → Z)
    (responses : list StreamingRecognizeResponse) (ending : option exn) :
  turns P P (consume_responses time_time responses ending).
Proof.
  induction responses as [|r rs IH]; cbn [consume_responses].
  - repeat turns_step HP.
  - repeat first [ apply process_stt_response_keeps | exact IH
                 | turns_step HP ].
Qed.

Lemma google_stt_stream_keeps (time_time : nat → Z) (opened : outcome unit)
    (responses : list StreamingRecognizeResponse) (ending : option exn) :
  turns P P (_google_stt_stream time_time opened responses ending).
Proof.
  unfold _google_stt_stream. turns_atoms.
  repeat first [ apply consume_responses_keeps | turns_step HP ].
Qed.

Lemma event_loop_reaps_keeps (exited : option Z) :
  turns P P (event_loop_reaps exited).
Proof.
  intros w evs H. rewrite event_loop_reaps_run.
  cbn [final self events]. rewrite app_nil_r. unfold reaped.
  destruct exited as [rc|]; [|done].
  destruct (ffmpeg_process (self w) ≫= returncode); [done|].
  by apply (stable_exit _ HP rc).
Qed.

Lemma awaiting_keeps {A} (exited : option Z) (m : M A) :
  turns P P m → turns P P (awaiting exited m).
Proof.
  intros Hm. apply (turns_try_finally P P P); [done|].
  apply event_loop_reaps_keeps.
Qed.

Lemma start_cleanup_keeps (env : Environment) : turns P P (start_cleanup env).
Proof.
  unfold start_cleanup, server_wait_closed. turns_atoms.
  repeat first [ apply stop_keeps | apply awaiting_keeps | turns_step HP ].
Qed.

End kept.

Lemma gather_keeps {A} (P : assertion) (tasks : list (M A)) :
  Forall (turns P P) tasks → turns P P (gather_return_exceptions tasks).
Proof.
  induction 1 as [|t ts Ht _ IH]; [apply turns_ret|].
  intros w evs H. cbn [gather_return_exceptions].
  specialize (Ht w evs H). destruct (t w) as [x w' evs']. cbn in Ht.
  assert (turns P P (bind (gather_return_exceptions ts)
                       (λ rs, ret (x :: rs)))) as Hrest
    by (apply turns_seq; [done|intros rs; apply turns_ret]).
  specialize (Hrest w' _ Ht).
  destruct (bind _ _ w') as [y w'' evs'']. cbn in *.
  by rewrite (assoc_L (++)).
Qed.

Lemma broadcast_keeps (P : assertion) (json_dumps : message → string)
    (send_answer : WebSocket → outcome unit) (m : message) :
  stable P → turns P P (_broadcast json_dumps send_answer m).
Proof.
  intros HP. unfold _broadcast.
  apply turns_seq; [apply turns_get_self|intros s].
  destruct (decide (clients s = ∅)); [apply turns_ret|].
  apply turns_seq; [|intros; apply turns_ret].
  apply gather_keeps, Forall_fmap, Forall_true. intros c.
  unfold client_send. cbn. repeat turns_step HP.
Qed.

Lemma process_exited_keeps (P : assertion) (rc : Z) :
  stable P → turns P P (process_exited rc).
Proof.
  intros HP. apply turns_modify_self. intros s evs.
  apply (stable_exit _ HP rc).
Qed.

(** [_start_ffmpeg_process] takes [P] to [Q] when storing the spawned
    producer does. *)
Lemma start_ffmpeg_process_turns (P Q : assertion) (spawned : outcome nat)
    (slept : outcome (option Z)) (errors : outcome (option string))
    (stream_url : string) :
  stable Q →
  (∀ e s evs, is_producer_spawn e = false → P s evs → P s (evs ++ [e])) →
  (∀ cmd q s evs, P s evs →
     Q (set_ffmpeg_process (Some {| pid := q; returncode := None |}) s)
       (evs ++ [EvSpawn ("ffmpeg" :: cmd) q])) →
  implies P Q →
  turns P Q (_start_ffmpeg_process spawned slept errors stream_url).
Proof.
  intros HQ Hev Hstore HPQ. unfold _start_ffmpeg_process.
  apply (turns_bind P P Q); [|intros _|done].
  { apply turns_emit. intros s evs. by apply Hev. }
  match goal with
  | |- turns _ _ (bind _ (λ process, bind _ ?rest)) =>
      assert (turns Q Q (rest tt)) as Hrest
  end.
  { unfold asyncio_sleep, decode.
    repeat first [ apply (process_exited_keeps _ _ HQ) | turns_step HQ ]. }
  intros w evs H. destruct spawned as [q|e].
  - specialize (Hrest
      {| self := set_ffmpeg_process (Some {| pid := q; returncode := None |})
                   (self w);
         ticks := ticks w |} _
      (Hstore ["-i"; stream_url; "-f"; "s16le"; "-ar"; "16000"; "-ac"; "1";
               "-"] q _ _ H)).
    cbn beta in Hrest. rewrite <- (assoc_L (++)) in Hrest.
    match type of Hrest with
    | Q (self (final ?r)) _ => set (rest_run := r) in *
    end.
    match goal with
    | |- Q (self (final ?r)) _ =>
        assert (r = after
                      [EvSpawn ["ffmpeg"; "-i"; stream_url; "-f"; "s16le";
                                "-ar"; "16000"; "-ac"; "1"; "-"] q]
                      rest_run) as ->
    end.
    { subst rest_run.
      unfold create_subprocess_exec, bind at 1 2 3, emit, ret, modify_self.
      cbn [after result final events self ticks app].
      by destruct (bind (asyncio_sleep slept) _ _). }
    by destruct rest_run.
  - cbn. rewrite app_nil_r. by apply HPQ.
Qed.

Lemma same_setup_stable (s0 : BettingSystem) : stable (same_setup s0).
Proof. by split. Qed.

Lemma no_producer_stable : stable no_producer.
Proof.
  split; [|done..]. intros e s evs He H.
  apply Forall_app. split; [done|]. by constructor.
Qed.

Lemma spawn_elem_app (cmd : list string) (q : nat) (evs : list event)
    (e : event) :
  is_producer_spawn e = false →
  EvSpawn ("ffmpeg" :: cmd) q ∈ evs ++ [e] → EvSpawn ("ffmpeg" :: cmd) q ∈ evs.
Proof.
  intros He [Hin|Hin%list_elem_of_singleton]%elem_of_app; [done|].
  by subst e.
Qed.

Lemma producer_owned_stable : stable producer_owned.
Proof.
  split.
  - intros e s evs He H cmd q Hin%(spawn_elem_app _ _ _ _ He).
    destruct (H cmd q Hin) as [Ht|Hp]; [left|by right].
    apply elem_of_app. by left.
  - done.
  - intros rc s evs H cmd q Hin.
    destruct (H cmd q Hin) as [Ht|(p & Hp & Hq)]; [by left|right].
    exists {| pid := pid p; returncode := Some rc |}.
    unfold record_exit. cbn. by rewrite Hp.
Qed.

Lemma producer_settled_stable : stable producer_settled.
Proof.
  split.
  - intros e s evs He H cmd q Hin%(spawn_elem_app _ _ _ _ He).
    destruct (H cmd q Hin) as [Ht|Hp]; [left|by right].
    apply elem_of_app. by left.
  - done.
  - intros rc s evs H cmd q Hin.
    destruct (H cmd q Hin) as [Ht|(rc' & Hp)]; [by left|right].
    exists rc. unfold record_exit. cbn. by rewrite Hp.
Qed.

Lemma no_producer_owned : implies no_producer producer_owned.
Proof.
  intros s evs H cmd q Hin. unfold no_producer in H.
  rewrite Forall_forall in H. by apply H in Hin.
Qed.

Lemma no_producer_settled : implies no_producer producer_settled.
Proof.
  intros s evs H cmd q Hin. unfold no_producer in H.
  rewrite Forall_forall in H. by apply H in Hin.
Qed.

(** [stop] settles the producer that [self] refers to. *)
Lemma stop_settles : turns producer_owned producer_settled stop.
Proof.
  intros w evs H cmd q Hin. rewrite stop_run in *.
  cbn [self final events] in *.
  assert (EvSpawn ("ffmpeg" :: cmd) q ∈ evs) as Hin'.
  { apply elem_of_app in Hin as [?|Hin]; [done|].
    unfold stop_events in Hin. destruct (live_producer (self w)).
    - apply elem_of_cons in Hin as [?|Hin]; [done|].
      by apply list_elem_of_singleton in Hin.
    - by apply elem_of_nil in Hin. }
  destruct (H cmd q Hin') as [Ht|(p & Hp & Hq)].
  - left. apply elem_of_app. by left.
  - destruct p as [q' [rc|]]; cbn in Hq; subst q'.
    + right. by exists rc.
    + left. apply elem_of_app. right.
      unfold stop_events, live_producer. rewrite Hp. cbn.
      apply elem_of_cons. by left.
Qed.

Lemma start_handler_keeps (P : assertion) (e : exn) (h : M unit) :
  stable P → start_handler e = Some h → turns P P h.
Proof.
  intros HP. unfold start_handler.
  destruct (is_Exception e); [|done]. intros [= <-].
  turns_atoms. repeat turns_step HP.
Qed.

Lemma start_body_turns (P Q : assertion) (env : Environment)
    (youtube_url : string) :
  stable P → stable Q →
  (∀ cmd q s evs, P s evs →
     Q (set_ffmpeg_process (Some {| pid := q; returncode := None |}) s)
       (evs ++ [EvSpawn ("ffmpeg" :: cmd) q])) →
  implies P Q →
  turns P Q (start_body env youtube_url).
Proof.
  intros HP HQ Hstore HPQ. unfold start_body.
  apply (turns_bind P P Q); [by apply get_stream_url_keeps| |done].
  intros u. apply (turns_bind P P Q); [by repeat turns_step HP| |done].
  intros _. apply (turns_bind P Q Q); [| |by intros ??].
  - apply start_ffmpeg_process_turns; [done| |done..].
    intros e s evs. apply (stable_event _ HP).
  - intros _. apply awaiting_keeps; [done|].
    by apply google_stt_stream_keeps.
Qed.

(** [start] takes [P] to [R] when its body takes [P] to [Q] by storing the
    producer and its [stop] takes [Q] to [R]. *)
Lemma start_turns (P Q R : assertion) (env : Environment)
    (youtube_url : string) :
  stable P → stable Q → stable R →
  (∀ cmd q s evs, P s evs →
     Q (set_ffmpeg_process (Some {| pid := q; returncode := None |}) s)
       (evs ++ [EvSpawn ("ffmpeg" :: cmd) q])) →
  implies P Q → implies P R → turns Q R stop →
  turns P R (start env youtube_url).
Proof.
  intros HP HQ HR Hstore HPQ HPR Hstop. rewrite start_blocks.
  unfold websockets_serve.
  repeat (apply (turns_bind P P R); [by repeat turns_step HP| |done];
          intros ?).
  apply (turns_try_finally P Q R).
  - apply (turns_try_except P Q Q); [|by eauto using start_handler_keeps
                                     |by intros ??].
    by apply start_body_turns.
  - unfold start_cleanup, server_wait_closed.
    apply (turns_bind Q R R); [done| |by intros ??].
    intros _. turns_atoms.
    repeat first [ apply (awaiting_keeps R HR) | turns_step HR ].
Qed.

(** ** The life cycle as a whole *)

Lemma start_settles (env : Environment) (youtube_url : string) :
  turns no_producer producer_settled (start env youtube_url).
Proof.
  apply (start_turns no_producer producer_owned producer_settled env
           youtube_url no_producer_stable producer_owned_stable
           producer_settled_stable).
  - intros cmd q s evs H cmd' q' Hin. right.
    apply elem_of_app in Hin as [Hin|Hin%list_elem_of_singleton].
    + unfold no_producer in H. rewrite Forall_forall in H.
      by apply H in Hin.
    + injection Hin as _ ->. by eexists.
  - apply no_producer_owned.
  - apply no_producer_settled.
  - apply stop_settles.
Qed.

Lemma start_keeps_setup (s0 : BettingSystem) (env : Environment)
    (youtube_url : string) :
  turns (same_setup s0) (same_setup s0) (start env youtube_url).
Proof.
  pose proof (same_setup_stable s0) as HS.
  apply (start_turns _ _ _ env youtube_url HS HS HS);
    [by intros cmd q s evs|by intros ??|by intros ??|by apply stop_keeps].
Qed.

(** Whatever the world answers, [start] leaves no producer behind: a
    producer it spawned has been sent the termination signal, or is known
    to have exited, when [start] is left. *)
Theorem start_settles_every_producer
    (env : Environment) (youtube_url : string) (w : World) :
  let r := start env youtube_url w in
  ∀ cmd q, EvSpawn ("ffmpeg" :: cmd) q ∈ events r →
    EvTerminate q ∈ events r
    ∨ ∃ rc, ffmpeg_process (self (final r))
            = Some {| pid := q; returncode := Some rc |}.
Proof. cbn zeta. apply (start_settles env youtube_url w []). constructor. Qed.

(** The pipeline never changes the setup of the system: after [start],
    [stop], a broadcast or the processing of a response, the keyword set,
    the port, the streaming configuration and the registry are what they
    were. *)
Theorem pipeline_keeps_setup
    (env : Environment) (youtube_url : string)
    (json_dumps : message → string) (send_answer : WebSocket → outcome unit)
    (m : message) (time_time : nat → Z)
    (response : StreamingRecognizeResponse) (w : World) :
  let unchanged (r : run unit) :=
    keywords (self (final r)) = keywords (self w)
    ∧ ws_port (self (final r)) = ws_port (self w)
    ∧ streaming_config (self (final r)) = streaming_config (self w)
    ∧ clients (self (final r)) = clients (self w) in
  unchanged (start env youtube_url w)
  ∧ unchanged (stop w)
  ∧ unchanged (_broadcast json_dumps send_answer m w)
  ∧ unchanged (_process_stt_response time_time response w).
Proof.
  cbn zeta.
  pose proof (same_setup_stable (self w)) as HS.
  assert (same_setup (self w) (self w) []) as H0 by done.
  split; [|split; [|split]].
  - exact (start_keeps_setup _ env youtube_url w [] H0).
  - exact (stop_keeps _ HS w [] H0).
  - exact (broadcast_keeps _ json_dumps send_answer m HS w [] H0).
  - exact (process_stt_response_keeps _ HS time_time response w [] H0).
Qed.

Lemma start_cleanup_exact (env : Environment) (v : World) :
  start_cleanup env v
  = Run (env_wait_closed env)
      {| self := reaped (env_closed_exit env)
                   (set_is_running false (self v));
         ticks := ticks v |}
      (stop_events (self v)
       ++ EvServerClose :: EvServerWaitClosed
       :: match env_wait_closed env with
          | Ret _ => [EvLog INFO "--- System Shutting Down ---"]
          | Raise _ => []
          end).
Proof.
  unfold start_cleanup, bind. rewrite stop_run.
  unfold server_close, emit. cbn [after]. rewrite awaiting_run.
  unfold server_wait_closed, logger_info, emit, bind, after.
  by destruct (env_wait_closed env) as [[]|e].
Qed.

Lemma start_handler_catches (body : M unit) (w : World) (e : exn) :
  result (try_except body start_handler w) = Raise e →
  is_Exception e = false.
Proof.
  unfold try_except, start_handler.
  destruct (body w) as [[[]|e'] v evs]; [done|].
  destruct (is_Exception e') eqn:He'; cbn; [done|]. by intros [= <-].
Qed.

(** How [start] is left. If the server cannot be bound, the exception goes
    to the caller at once: the running flag stays set and nothing is
    cleaned up. Once the server is bound, [start] always clears the flag
    and closes the server, and the only exceptions that reach the caller are
    those outside [Exception] and the one of the wait for the server to
    close. *)
Theorem start_exits (env : Environment) (youtube_url : string) (w : World) :
  let r := start env youtube_url w in
  (∀ e, env_serve env = Raise e →
     r = Run (Raise e)
           {| self := set_is_running true (self w); ticks := ticks w |}
           (start_prelude youtube_url (ws_port (self w))))
  ∧ (env_serve env = Ret tt →
     is_running (self (final r)) = false
     ∧ EvServerClose ∈ events r
     ∧ ∀ e, result r = Raise e →
         is_Exception e = false ∨ env_wait_closed env = Raise e).
Proof.
  cbn zeta. rewrite start_run. split.
  - by intros e ->.
  - intros ->. unfold try_finally.
    set (w1 := {| self := _; ticks := _ |}).
    pose proof (start_handler_catches (start_body env youtube_url) w1)
      as Hcatch.
    destruct (try_except _ _ w1) as [x v evs].
    rewrite start_cleanup_exact. cbn in Hcatch.
    destruct (reaped_setup (env_closed_exit env)
                (set_is_running false (self v))) as [Hrun _].
    destruct (env_wait_closed env) as [[]|e'];
      cbn [after result final events self];
      (split; [by rewrite Hrun|]); (split; [in_events|]); intros e He; eauto.
Qed.

(** ** The response stream *)

Lemma response_events_app (time_time : nat → Z) (s : BettingSystem)
    (tick : nat) (xs ys : list StreamingRecognitionResult) :
  response_events time_time s tick (xs ++ ys)
  = response_events time_time s tick xs
    ++ response_events time_time s (tick + length (heard xs)) ys.
Proof.
  revert tick. unfold heard.
  induction xs as [|x xs IH]; intros tick; cbn [app response_events].
  - cbn. by rewrite Nat.add_0_r.
  - destruct (has_alternative x) eqn:Hx.
    + rewrite filter_cons_True by (rewrite Hx; exact I).
      rewrite IH. cbn. rewrite <- !app_assoc, Nat.add_succ_r. done.
    + rewrite filter_cons_False by (rewrite Hx; intros []). apply IH.
Qed.

Lemma heard_app (xs ys : list StreamingRecognitionResult) :
  heard (xs ++ ys) = heard xs ++ heard ys.
Proof. apply filter_app. Qed.

Lemma process_response_exact (time_time : nat → Z)
    (xs : list StreamingRecognitionResult) (w : World) :
  _process_stt_response time_time {| results := xs |} w
  = Run (Ret tt)
      {| self := self w; ticks := ticks w + length (heard xs) |}
      (response_events time_time (self w) (ticks w) xs).
Proof.
  unfold _process_stt_response, heard. cbn [results].
  match goal with |- context [for_each _ ?b] => set (body := b) end.
  assert (∀ x v,
    body x v
    = Run (Ret tt)
        (if has_alternative x
         then {| self := self v; ticks := S (ticks v) |} else v)
        (response_events time_time (self v) (ticks v) [x])) as Hbody.
  { intros x v. subst body. cbn beta. cbn [response_events].
    unfold has_alternative, detected, detection_line, top_transcript.
    destruct (alternatives x) as [|top alts]; [done|].
    unfold bind, get_self, read_clock, create_task_broadcast, emit,
      logger_info.
    cbn [result final events self ticks after].
    destruct (is_final x);
      destruct (_find_keywords (self v) (transcript top)); done. }
  clearbody body. revert w.
  induction xs as [|x xs IH]; intros w; cbn [for_each].
  - cbn. by rewrite Nat.add_0_r, world_eta.
  - unfold bind. rewrite Hbody, IH.
    change (x :: xs) with ([x] ++ xs) at 2.
    rewrite response_events_app. unfold heard.
    cbn [response_events after].
    destruct (has_alternative x) eqn:Hx.
    + rewrite !filter_cons_True by (rewrite Hx; exact I).
      cbn. by rewrite Nat.add_succ_r, Nat.add_1_r.
    + rewrite !filter_cons_False by (rewrite Hx; intros []).
      cbn. by rewrite Nat.add_0_r.
Qed.

Lemma submitted_response_events (time_time : nat → Z) (s : BettingSystem)
    (tick : nat) (xs : list StreamingRecognitionResult) :
  submitted (response_events time_time s tick xs)
  = messages_of time_time s tick xs.
Proof.
  revert tick. induction xs as [|x xs IH]; intros tick; [done|].
  cbn [response_events messages_of]. destruct (has_alternative x); [|done].
  unfold submitted in *. cbn. rewrite omap_app, IH.
  by destruct (detected s x).
Qed.

Lemma consume_responses_exact (time_time : nat → Z)
    (responses : list StreamingRecognizeResponse) (ending : option exn)
    (w : World) :
  is_running (self w) = true →
  consume_responses time_time responses ending w
  = Run (match ending with None => Ret tt | Some e => Raise e end)
      {| self := self w;
         ticks := ticks w + length (heard (all_results responses)) |}
      (response_events time_time (self w) (ticks w) (all_results responses)).
Proof.
  revert w. induction responses as [|[xs] rs IH]; intros w Hrun.
  - cbn. rewrite Nat.add_0_r, world_eta. by destruct ending.
  - cbn [consume_responses]. unfold bind at 1, get_self.
    cbn [result final events after]. rewrite Hrun. cbn [negb].
    unfold bind. rewrite process_response_exact, IH by done.
    unfold all_results. cbn [mbind list_bind results self ticks after].
    fold (all_results rs).
    rewrite response_events_app, heard_app, length_app, Nat.add_assoc.
    by destruct ending.
Qed.

Lemma google_stt_stream_exact (time_time : nat → Z)
    (responses : list StreamingRecognizeResponse) (ending : option exn)
    (w : World) :
  is_running (self w) = true →
  _google_stt_stream time_time (Ret tt) responses ending w
  = Run (match ending with None => Ret tt | Some e => Raise e end)
      {| self := self w;
         ticks := ticks w + length (heard (all_results responses)) |}
      (EvStreamingRecognize
       :: EvLog INFO "Streaming audio to Google STT..."
       :: response_events time_time (self w) (ticks w)
            (all_results responses)).
Proof.
  intros Hrun. unfold _google_stt_stream, logger_info.
  unfold bind, emit. by rewrite consume_responses_exact.
Qed.

(** While the running flag is set, [_google_stt_stream] processes every
    response in arrival order and every result once: the broadcasts it
    submits are those of all the results, in order; it leaves [self] as it
    was and ends as the stream ends. If the session cannot be opened, the
    exception goes on and nothing is processed. If the flag is clear when a
    response arrives, the loop is left at once: nothing is submitted and
    the end of the stream is never seen. *)
Theorem stream_is_processed_in_order
    (time_time : nat → Z) (responses : list StreamingRecognizeResponse)
    (ending : option exn) (s : BettingSystem) (t : nat) :
  let w := {| self := set_is_running true s; ticks := t |} in
  let r := _google_stt_stream time_time (Ret tt) responses ending w in
  (result r = match ending with None => Ret tt | Some e => Raise e end
   ∧ self (final r) = self w
   ∧ submitted (events r)
     = messages_of time_time (self w) t (all_results responses)
   ∧ length (submitted (events r)) = length (heard (all_results responses)))
  ∧ (∀ e, _google_stt_stream time_time (Raise e) responses ending w
          = Run (Raise e) w [EvStreamingRecognize])
  ∧ (∀ response,
       let w0 := {| self := set_is_running false s; ticks := t |} in
       let r0 := _google_stt_stream time_time (Ret tt)
                   (response :: responses) ending w0 in
       result r0 = Ret tt ∧ final r0 = w0 ∧ submitted (events r0) = []).
Proof.
  cbn zeta. split; [|split; [done|done]].
  rewrite google_stt_stream_exact by done.
  cbn [after result final events self ticks app].
  assert (submitted
            (EvStreamingRecognize
             :: EvLog INFO "Streaming audio to Google STT..."
             :: response_events time_time (set_is_running true s) t
                  (all_results responses))
          = messages_of time_time (set_is_running true s) t
              (all_results responses)) as ->
    by apply submitted_response_events.
  split; [done|]. split; [done|]. split; [done|].
  by destruct (messages_of_heard time_time (set_is_running true s) t
                 (all_results responses)) as [-> _].
Qed.

Lemma messages_of_well_formed (time_time : nat → Z) (s : BettingSystem)
    (tick : nat) (xs : list StreamingRecognitionResult) :
  Forall (λ m, msg_type m = "transcription"
               ∧ NoDup (msg_keywords m)
               ∧ ∀ k, k ∈ msg_keywords m →
                   k ∈ keywords s ∧ k ∈ words_of (msg_text m))
    (messages_of time_time s tick xs)
  ∧ msg_timestamp <$> messages_of time_time s tick xs
    = time_time <$> seq tick (length (heard xs)).
Proof.
  revert tick. unfold heard.
  induction xs as [|x xs IH]; intros tick; [by split|].
  cbn [messages_of]. destruct (has_alternative x) eqn:Hx.
  - rewrite filter_cons_True by (rewrite Hx; exact I).
    destruct (IH (S tick)) as [IH1 IH2]. split.
    + constructor; [|done]. cbn. split; [done|].
      split; [apply NoDup_elements|].
      intros k Hk. apply elem_of_find_keywords in Hk. tauto.
    + cbn. by rewrite IH2.
  - rewrite filter_cons_False by (rewrite Hx; intros []). apply IH.
Qed.

(** Every event [_process_stt_response] submits has the type
    "transcription" and duplicate-free keywords, each of them a member of
    the keyword set and a word of the event's own text; the events carry
    consecutive readings of the clock, one per result that has an
    alternative, and no reading is spent on a skipped result. *)
Theorem submitted_events_are_well_formed
    (time_time : nat → Z) (response : StreamingRecognizeResponse) (w : World) :
  let r := _process_stt_response time_time response w in
  Forall (λ m, msg_type m = "transcription"
               ∧ NoDup (msg_keywords m)
               ∧ ∀ k, k ∈ msg_keywords m →
                   k ∈ keywords (self w) ∧ k ∈ words_of (msg_text m))
    (submitted (events r))
  ∧ msg_timestamp <$> submitted (events r)
    = time_time <$> seq (ticks w) (length (heard (results response)))
  ∧ ticks (final r) = (ticks w + length (heard (results response)))%nat.
Proof.
  destruct response as [xs]. cbn zeta.
  rewrite process_response_exact. cbn [events final ticks results].
  rewrite submitted_response_events.
  destruct (messages_of_well_formed time_time (self w) (ticks w) xs)
    as [H1 H2].
  done.
Qed.

Lemma info_lines_response_events (time_time : nat → Z) (s : BettingSystem)
    (tick : nat) (xs : list StreamingRecognitionResult) :
  info_lines (response_events time_time s tick xs)
  = detection_line s <$> filter (λ x, detected s x) (heard xs).
Proof.
  revert tick. unfold heard.
  induction xs as [|x xs IH]; intros tick; [done|].
  cbn [response_events]. destruct (has_alternative x) eqn:Hx.
  - rewrite (filter_cons_True (λ x, has_alternative x))
      by (rewrite Hx; exact I).
    destruct (detected s x) eqn:Hd.
    + rewrite filter_cons_True by (rewrite Hd; exact I).
      rewrite fmap_cons, <- (IH (S tick)). reflexivity.
    + rewrite filter_cons_False by (rewrite Hd; intros []).
      rewrite <- (IH (S tick)). reflexivity.
  - rewrite (filter_cons_False (λ x, has_alternative x))
      by (rewrite Hx; intros []).
    apply IH.
Qed.

(** [_process_stt_response] logs a detection exactly for the results that
    have an alternative, are final and matched a keyword, in order: an
    interim result or a result without a match is broadcast but never
    logged. *)
Theorem detections_are_logged_for_final_matches
    (time_time : nat → Z) (response : StreamingRecognizeResponse) (w : World) :
  info_lines (events (_process_stt_response time_time response w))
  = detection_line (self w)
    <$> filter (λ x, detected (self w) x) (heard (results response)).
Proof.
  destruct response as [xs]. rewrite process_response_exact.
  apply info_lines_response_events.
Qed.

(** ** The audio loop of the request generator *)

Lemma audio_requests_split (steps : list (bool * read_answer)) :
  ∃ chunks rest,
    steps = (yields <$> chunks) ++ rest
    ∧ Forall (λ c, c ≠ []) chunks
    ∧ stops rest
    ∧ audio_requests steps = (audio_request <$> chunks, left_at rest).
Proof.
  induction steps as [|[running answer] steps (chunks & rest & -> & Hne & Hst & IH)].
  - by exists [], [].
  - destruct running.
    + destruct answer as [[|b c]|e].
      * by exists [], ((true, ReadBytes []) :: (yields <$> chunks) ++ rest).
      * exists ((b :: c) :: chunks), rest. cbn [audio_requests].
        rewrite IH. split; [done|]. split; [by constructor|]. done.
      * exists [], ((true, ReadRaises e) :: (yields <$> chunks) ++ rest).
        by destruct e.
    + by exists [], ((false, answer) :: (yields <$> chunks) ++ rest).
Qed.

(** The requests of a session are the configuration followed by the chunks
    the audio source returned, one request per chunk, in the order read and
    up to the first iteration that finds the running flag clear, reads no
    data or is interrupted; a cancellation ends the sequence like the end of
    the data, any other exception of the read leaves the generator. *)
Theorem request_generator_streams_chunks_in_order
    (s : BettingSystem) (steps : list (bool * read_answer)) :
  ∃ chunks rest,
    steps = (yields <$> chunks) ++ rest
    ∧ Forall (λ c, c ≠ []) chunks
    ∧ stops rest
    ∧ request_generator s steps
      = (config_request (streaming_config s) :: (audio_request <$> chunks),
         left_at rest).
Proof.
  destruct (audio_requests_split steps)
    as (chunks & rest & Hsteps & Hne & Hst & Haudio).
  exists chunks, rest. unfold request_generator. by rewrite Haudio.
Qed.

Lemma audio_requests_app (steps more : list (bool * read_answer)) :
  audio_requests (steps ++ more)
  = match (audio_requests steps).2 with
    | Suspended =>
        ((audio_requests steps).1 ++ (audio_requests more).1,
         (audio_requests more).2)
    | _ => audio_requests steps
    end.
Proof.
  induction steps as [|[running answer] steps IH].
  - cbn. by destruct (audio_requests more).
  - cbn [app audio_requests]. destruct running; [|done].
    destruct answer as [[|b c]|e]; [done| |by destruct e].
    rewrite IH. destruct (audio_requests steps) as [rs []]; cbn; try done.
Qed.

(** A request once yielded stays: with more iterations the generator yields
    the same requests and then, if it was only suspended, those of the
    further iterations; a generator that has finished or raised yields
    nothing more. *)
Theorem request_generator_extends
    (s : BettingSystem) (steps more : list (bool * read_answer)) :
  request_generator s (steps ++ more)
  = match (request_generator s steps).2 with
    | Suspended =>
        ((request_generator s steps).1 ++ (audio_requests more).1,
         (audio_requests more).2)
    | _ => request_generator s steps
    end.
Proof.
  unfold request_generator. rewrite audio_requests_app.
  destruct (audio_requests steps) as [rs []]; cbn; try done.
Qed.

(** ** What the matcher can report *)

Section word_facts.

Import PyStr.

Lemma push_word_Forall (P : string → Prop) (w : string) (ws : list string) :
  (w ≠ "" → P w) → Forall P ws → Forall P (push_word w ws).
Proof. destruct w; [done|]. intros Hw Hws. by constructor; [apply Hw|]. Qed.

(** The words of a split are non-empty and keep, of what holds of every
    non-blank character of the text, what holds of their characters. *)
Lemma scan_words (P : ascii → bool) (s : string) :
  all_chars (λ c, is_space c || P c) s = true →
  all_chars (λ c, negb (is_space c) && P c) (scan s).1 = true
  ∧ Forall (λ w, w ≠ "" ∧ all_chars (λ c, negb (is_space c) && P c) w = true)
      (scan s).2.
Proof.
  induction s as [|c s IH]; [done|]. cbn [all_chars scan].
  intros [Hc Hs]%andb_true_iff. destruct (IH Hs) as [IH1 IH2].
  destruct (scan s) as [w ws]. cbn [fst snd] in *.
  destruct (is_space c) eqn:Hsp; cbn [fst snd].
  - split; [done|]. by apply push_word_Forall.
  - split; [|done]. cbn. cbn in Hc. by rewrite Hsp, Hc, IH1.
Qed.

Lemma split_words (P : ascii → bool) (s : string) :
  all_chars (λ c, is_space c || P c) s = true →
  Forall (λ w, w ≠ "" ∧ all_chars (λ c, negb (is_space c) && P c) w = true)
    (split s).
Proof.
  intros H. destruct (scan_words P s H) as [H1 H2]. unfold split.
  destruct (scan s) as [w ws]. by apply push_word_Forall.
Qed.

Lemma normalized_chars (text : string) :
  all_chars
    (λ c, is_space c
          || negb (Ascii.eqb c ".") && negb (Ascii.eqb c ",")
             && Ascii.eqb (lower_char c) c)
    (strip_punct (lower text)) = true.
Proof.
  induction text as [|c text IH]; [done|]. cbn [lower strip_punct].
  destruct (Ascii.eqb (lower_char c) "." || Ascii.eqb (lower_char c) ",")%bool
    eqn:Hp; [done|].
  cbn [all_chars]. rewrite IH, andb_true_r.
  apply orb_false_iff in Hp as [-> ->]. cbn [negb andb].
  rewrite lower_char_idemp, Ascii.eqb_refl. apply orb_true_r.
Qed.

Lemma words_of_reportable (text : string) :
  Forall (λ k, reportable k = true) (words_of text).
Proof.
  rewrite words_of_normalized. unfold normalized_tokens.
  eapply Forall_impl; [apply split_words, normalized_chars|].
  intros k [Hne Hk]. unfold reportable. apply andb_true_iff. split.
  - apply negb_true_iff. by apply String.eqb_neq.
  - clear Hne. induction k as [|c k IH]; [done|]. cbn [all_chars] in *.
    apply andb_true_iff in Hk as [Hc Hk]. rewrite (IH Hk), andb_true_r.
    unfold word_char. revert Hc.
    by destruct (is_space c), (Ascii.eqb c "."), (Ascii.eqb c ","),
      (Ascii.eqb (lower_char c) c).
Qed.

Lemma all_chars_lower (k : string) :
  all_chars word_char k = true → lower k = k.
Proof.
  induction k as [|c k IH]; [done|]. cbn [all_chars lower].
  intros [Hc Hk]%andb_true_iff. rewrite (IH Hk). f_equal.
  unfold word_char in Hc. apply andb_true_iff in Hc as [_ Hc].
  by apply Ascii.eqb_eq.
Qed.

Lemma all_chars_no_space (k : string) :
  all_chars word_char k = true → has_space k = false.
Proof.
  induction k as [|c k IH]; [done|]. cbn [all_chars has_space].
  intros [Hc Hk]%andb_true_iff. rewrite (IH Hk), orb_false_r.
  unfold word_char in Hc. rewrite <- !andb_assoc in Hc.
  apply andb_true_iff in Hc as [Hc _]. by apply negb_true_iff.
Qed.

Lemma all_chars_no_punct (k : string) (d : ascii) :
  d = "."%char ∨ d = ","%char →
  all_chars word_char k = true → occurs d k = false.
Proof.
  intros Hd. induction k as [|c k IH]; [done|]. cbn [all_chars occurs].
  intros [Hc Hk]%andb_true_iff. rewrite (IH Hk), orb_false_r.
  unfold word_char in Hc.
  apply andb_true_iff in Hc as [[[_ H1]%andb_true_iff H2]%andb_true_iff _].
  apply negb_true_iff in H1, H2. by destruct Hd as [-> | ->].
Qed.

End word_facts.

(** Every word the matcher reports is non-empty, is its own lowercase form
    and contains no whitespace, no '.' and no ','. So a keyword that is
    empty, or holds an uppercase letter, a blank, a '.' or a ',', is never
    reported, whatever the text. *)
Theorem find_keywords_reports_plain_words
    (s : BettingSystem) (text k : string) :
  (k ∈ _find_keywords s text →
     k ≠ "" ∧ PyStr.lower k = k ∧ PyStr.has_space k = false
     ∧ PyStr.occurs "." k = false ∧ PyStr.occurs "," k = false)
  ∧ (reportable k = false → k ∉ _find_keywords s text).
Proof.
  assert (k ∈ _find_keywords s text → reportable k = true) as Hrep.
  { intros [Hk _]%elem_of_find_keywords.
    pose proof (words_of_reportable text) as H.
    rewrite Forall_forall in H. by apply H. }
  split.
  - intros [Hne Hall]%Hrep%andb_true_iff.
    split; [by apply String.eqb_neq, negb_true_iff|].
    split; [by apply all_chars_lower|].
    split; [by apply all_chars_no_space|].
    split; apply all_chars_no_punct; auto.
  - intros Hno Hin%Hrep. congruence.
Qed.

(** ** The matcher over parts of a transcript *)

Section append_facts.

Import PyStr.

Lemma append_cons (c : ascii) (s t : string) :
  String c s +:+ t = String c (s +:+ t).
Proof. reflexivity. Qed.

Lemma lower_append (s t : string) : lower (s +:+ t) = lower s +:+ lower t.
Proof.
  induction s as [|c s IH]; [done|].
  rewrite append_cons. cbn [lower]. by rewrite IH, append_cons.
Qed.

Lemma strip_punct_append (s t : string) :
  strip_punct (s +:+ t) = strip_punct s +:+ strip_punct t.
Proof.
  induction s as [|c s IH]; [done|].
  rewrite append_cons. cbn [strip_punct].
  destruct (Ascii.eqb c "." || Ascii.eqb c ",")%bool; [done|].
  by rewrite IH, append_cons.
Qed.

Lemma scan_append_blank (sep : ascii) (s t : string) :
  is_space sep = true →
  scan (s +:+ String sep t) = ((scan s).1, (scan s).2 ++ split t).
Proof.
  intros Hsep. induction s as [|c s IH].
  - change ("" +:+ String sep t) with (String sep t). cbn [scan].
    rewrite Hsep. unfold split. by destruct (scan t).
  - rewrite append_cons. cbn [scan]. rewrite IH.
    destruct (scan s) as [w ws]. cbn [fst snd].
    destruct (is_space c); [|done]. cbn [fst snd]. by destruct w.
Qed.

Lemma split_append_blank (sep : ascii) (s t : string) :
  is_space sep = true →
  split (s +:+ String sep t) = split s ++ split t.
Proof.
  intros Hsep. unfold split at 1 2. rewrite (scan_append_blank _ _ _ Hsep).
  destruct (scan s) as [w ws]. cbn [fst snd]. by destruct w.
Qed.

Lemma words_of_append_blank (sep : ascii) (s t : string) :
  is_space sep = true →
  words_of (s +:+ String sep t) = words_of s ++ words_of t.
Proof.
  intros Hsep. rewrite !words_of_normalized. unfold normalized_tokens.
  rewrite lower_append. cbn [lower]. rewrite strip_punct_append.
  cbn [strip_punct].
  assert (is_space (lower_char sep) = true) as Hsep'
    by (by rewrite is_space_lower_char).
  assert ((Ascii.eqb (lower_char sep) "." || Ascii.eqb (lower_char sep) ",")%bool
          = false) as ->.
  { destruct (Ascii.eqb_spec (lower_char sep) ".") as [E|_];
      [by rewrite E in Hsep'|].
    destruct (Ascii.eqb_spec (lower_char sep) ",") as [E|_];
      [by rewrite E in Hsep'|]. done. }
  by apply split_append_blank.
Qed.

End append_facts.

(** The matcher works word by word: what it finds in two texts joined by a
    whitespace character is what it finds in the one together with what it
    finds in the other. No keyword is found across the joint, and none is
    lost. *)
Theorem find_keywords_of_joined_texts
    (s : BettingSystem) (sep : ascii) (a b : string) :
  PyStr.is_space sep = true →
  (list_to_set (_find_keywords s (a +:+ String sep b)) : gset string)
  = list_to_set (_find_keywords s a) ∪ list_to_set (_find_keywords s b).
Proof.
  intros Hsep. apply set_eq. intros k.
  rewrite elem_of_union, !elem_of_list_to_set, !elem_of_find_keywords.
  rewrite (words_of_append_blank _ _ _ Hsep), elem_of_app. tauto.
Qed.

Lemma find_keywords_of_joined_texts_witness :
  (list_to_set (_find_keywords (__init__ ["bet"; "odds"] 8765)
                  ("Place your BET," +:+ String " " "the odds are good."))
     : gset string)
  = list_to_set (_find_keywords (__init__ ["bet"; "odds"] 8765)
                   "Place your BET,")
    ∪ list_to_set (_find_keywords (__init__ ["bet"; "odds"] 8765)
                     "the odds are good.").
Proof.
  apply (find_keywords_of_joined_texts (__init__ ["bet"; "odds"] 8765) " ").
  reflexivity.
Defined.

(** The matcher sees a transcript as a set of words: two texts with the same
    normalized words, in whatever order and however often repeated, yield
    the same keywords. *)
Theorem find_keywords_depends_on_word_set
    (s : BettingSystem) (text text' : string) :
  (∀ k, k ∈ words_of text ↔ k ∈ words_of text') →
  _find_keywords s text ≡ₚ _find_keywords s text'.
Proof.
  intros Hsame. apply NoDup_Permutation; [apply NoDup_elements..|].
  intros k. rewrite !elem_of_find_keywords, Hsame. done.
Qed.

Lemma find_keywords_depends_on_word_set_witness :
  _find_keywords (__init__ ["bet"; "odds"] 8765) "Bet, bet. ODDS"
  ≡ₚ _find_keywords (__init__ ["bet"; "odds"] 8765) "odds bet".
Proof.
  apply (find_keywords_depends_on_word_set
           (__init__ ["bet"; "odds"] 8765) "Bet, bet. ODDS" "odds bet").
  intros k.
  change (words_of "Bet, bet. ODDS") with ["bet"; "bet"; "odds"].
  change (words_of "odds bet") with ["odds"; "bet"].
  rewrite !elem_of_cons, elem_of_nil. tauto.
Defined.

(** ** Fan-out *)


Lemma websocket_handler_run (wait_closed : M unit) (websocket : WebSocket)
    (w : World) (x : outcome unit) (evs : list event) :
  let w1 := {| self := set_clients ({[websocket]} ∪ clients (self w)) (self w);
               ticks := ticks w |} in
  wait_closed w1 = Run x w1 evs →
  _websocket_handler wait_closed websocket w
  = Run x
      {| self := set_clients (clients (self w1) ∖ {[websocket]}) (self w1);
         ticks := ticks w |}
      (EvLog INFO "New dashboard client connected"
       :: evs ++ [EvLog INFO "Dashboard client disconnected"]).
Proof.
  cbn zeta. intros Hwait.
  unfold _websocket_handler, clients_add, logger_info, emit, modify_self.
  unfold bind at 1 2. cbn [after result final events self ticks].
  unfold try_finally. rewrite Hwait.
  unfold clients_remove, bind, get_self, logger_info, emit, modify_self.
  cbn [after result final events self ticks clients set_clients].
  rewrite decide_True by (apply elem_of_union_l; by apply elem_of_singleton).
  by destruct x as [[]|e].
Qed.

(** A client whose sends succeed receives what is broadcast while its
    handler waits for the close, and nothing that is broadcast after the
    handler has ended. *)
Theorem connected_client_receives_broadcast
    (json_dumps : message → string) (send_answer : WebSocket → outcome unit)
    (m : message) (websocket : WebSocket) (w : World) :
  send_answer websocket = Ret tt →
  let r := _websocket_handler (_broadcast json_dumps send_answer m)
             websocket w in
  result r = Ret tt
  ∧ EvSend websocket (json_dumps m) ∈ events r
  ∧ (websocket ∉ clients (self (final r)))
  ∧ (EvSend websocket (json_dumps m)
     ∉ events (_broadcast json_dumps send_answer m (final r))).
Proof.
  intros Hsend. cbn zeta.
  rewrite (websocket_handler_run _ _ _ _ _ (broadcast_run _ _ _ _)).
  cbn [result final events self ticks clients set_clients].
  split; [done|]. split; [|split].
  - apply elem_of_cons. right. apply elem_of_app. left.
    apply list_elem_of_fmap. exists websocket.
    split; [done|]. apply list_elem_of_filter. split.
    + unfold delivers. by rewrite Hsend.
    + apply elem_of_elements, elem_of_union_l. by apply elem_of_singleton.
  - rewrite elem_of_difference, elem_of_singleton. tauto.
  - rewrite broadcast_run. cbn [events self clients set_clients].
    unfold deliveries. rewrite list_elem_of_fmap.
    intros (c & [= <-] & [_ Hc%elem_of_elements]%list_elem_of_filter).
    apply elem_of_difference in Hc as [_ Hc]. apply Hc.
    by apply elem_of_singleton.
Qed.

Lemma connected_client_receives_broadcast_witness :
  let send_answer (c : WebSocket) := @Ret unit tt in
  let r := _websocket_handler (_broadcast msg_text send_answer bet_message)
             4%nat three_clients in
  result r = Ret tt
  ∧ EvSend 4%nat (msg_text bet_message) ∈ events r
  ∧ (4%nat ∉ clients (self (final r)))
  ∧ (EvSend 4%nat (msg_text bet_message)
     ∉ events (_broadcast msg_text send_answer bet_message (final r))).
Proof.
  apply (connected_client_receives_broadcast msg_text (λ _, Ret tt)
           bet_message 4%nat three_clients).
  reflexivity.
Defined.

(** ** Starting the producer *)

(** [_start_ffmpeg_process] spawns at most one process, with the command
    line of the raw 16 kHz mono capture. A failed spawn goes to the caller
    and leaves [self] untouched. After a spawn the process is the one
    [self.ffmpeg_process] refers to, however the method is left; it returns
    normally exactly when the process has not exited during the grace
    period, and raises [RuntimeError] with the standard error of the
    process when it has. *)
Theorem start_ffmpeg_process_outcomes
    (spawned : outcome nat) (slept : outcome (option Z))
    (errors : outcome (option string)) (stream_url : string) (w : World) :
  let r := _start_ffmpeg_process spawned slept errors stream_url w in
  let cmd := ["ffmpeg"; "-i"; stream_url; "-f"; "s16le"; "-ar"; "16000";
              "-ac"; "1"; "-"] in
  (∀ e, spawned = Raise e →
     result r = Raise e ∧ final r = w ∧ spawns (events r) = [])
  ∧ (∀ q, spawned = Ret q →
       spawns (events r) = [("ffmpeg", q)]
       ∧ EvSpawn cmd q ∈ events r
       ∧ (∃ rc, ffmpeg_process (self (final r))
                = Some {| pid := q; returncode := rc |})
       ∧ (result r = Ret tt ↔ slept = Ret None)
       ∧ (slept = Ret None → live_producer (self (final r)) = Some q)
       ∧ (∀ e, slept = Raise e →
            result r = Raise e ∧ live_producer (self (final r)) = Some q)
       ∧ (∀ rc, slept = Ret (Some rc) →
            live_producer (self (final r)) = None
            ∧ ∀ text, errors = Ret (Some text) →
                result r
                = Raise (RuntimeError ("FFmpeg failed to start: " +:+ text)))).
Proof.
  cbn zeta. unfold _start_ffmpeg_process, create_subprocess_exec,
    asyncio_sleep, process_exited, decode, logger_info, emit, modify_self,
    get_self, live_producer.
  split.
  - by intros e ->.
  - intros q ->. unfold bind.
    destruct slept as [[rc|]|e]; [destruct errors as [[text|]|e']| |];
      cbn; (split; [done|]); (split; [in_events|]); (split; [eauto|]);
      (split; [by split|]); (split; [done|]);
      (split; [by intros; simplify_eq|]);
      intros rc' ?; simplify_eq; (split; [done|]);
      intros text' ?; by simplify_eq.
Qed.

(** ** The resolved URL *)

Section line_facts.

Import PyStr.

Lemma append_assoc (s t u : string) : (s +:+ t) +:+ u = s +:+ (t +:+ u).
Proof.
  induction s as [|c s IH]; [done|]. by rewrite !append_cons, IH.
Qed.

Lemma append_empty_r (s : string) : s +:+ "" = s.
Proof. induction s as [|c s IH]; [done|]. by rewrite append_cons, IH. Qed.

(** A string is its fields before the last one, each with its separator,
    and then its last field. *)
Lemma split_on_snoc (sep : ascii) (s : string) :
  ∃ init x,
    split_on sep s = init ++ [x] ∧ s = lines_before sep init +:+ x.
Proof.
  induction s as [|c s (init & x & Hsplit & Hs)].
  - exists [], "". by split.
  - cbn [split_on]. destruct (Ascii.eqb_spec c sep) as [->|Hc].
    + exists ("" :: init), x. rewrite Hsplit. split; [done|].
      cbn [lines_before foldr]. fold (lines_before sep init).
      by rewrite append_empty_l, append_cons, <- Hs.
    + rewrite Hsplit. destruct init as [|y init].
      * exists [], (String c x). split; [done|].
        cbn [lines_before foldr] in *.
        by rewrite append_empty_l in *; subst.
      * exists (String c y :: init), x. split; [done|].
        cbn [lines_before foldr] in *. fold (lines_before sep init) in *.
        by rewrite !append_cons, <- Hs.
Qed.

Lemma split_on_last (sep : ascii) (s : string) :
  ∃ init,
    s = lines_before sep init +:+ last_item (split_on sep s)
    ∧ (occurs sep s = false → init = []).
Proof.
  destruct (split_on_snoc sep s) as (init & x & Hsplit & Hs).
  exists init. unfold last_item. rewrite Hsplit, last_snoc. split; [done|].
  intros Hno. destruct init as [|y init]; [done|]. exfalso.
  rewrite Hs in Hno. cbn [lines_before foldr] in Hno. clear -Hno.
  induction y as [|c y IH].
  - rewrite append_empty_l, append_cons in Hno. cbn in Hno.
    by rewrite Ascii.eqb_refl in Hno.
  - rewrite !append_cons in Hno. cbn in Hno.
    apply orb_false_iff in Hno as [_ Hno]. by apply IH.
Qed.

End line_facts.

(** On success [_get_stream_url] spawns yt-dlp once and returns the last
    line of the whitespace-stripped output: the stripped output is the
    lines before it, each with its newline, followed by the result, which
    holds no newline; an output of a single line is returned whole. *)
Theorem resolved_url_is_last_line
    (p : nat) (out : string) (err : option string) (youtube_url : string)
    (w : World) :
  let r := _get_stream_url (Ret p)
             (Ret {| exit_status := 0; stdout := Some out; stderr := err |})
             youtube_url w in
  spawns (events r) = [("yt-dlp", p)]
  ∧ ∃ u before,
      result r = Ret (Some u)
      ∧ PyStr.strip out = lines_before "010" before +:+ u
      ∧ PyStr.occurs "010" u = false
      ∧ (PyStr.occurs "010" (PyStr.strip out) = false → u = PyStr.strip out).
Proof.
  cbn zeta. split; [done|].
  destruct (get_stream_url_run (Ret p)
              (Ret {| exit_status := 0; stdout := Some out; stderr := err |})
              youtube_url w) as [-> _].
  cbn [resolved exit_status stdout Z.eqb].
  destruct (split_on_last "010" (PyStr.strip out)) as (before & Hs & Hone).
  eexists _, before. split; [done|]. split; [done|].
  split; [apply last_item_no_separator|].
  intros Hno. rewrite (Hone Hno) in Hs. by rewrite Hs at 2.
Qed.

(** ** The entry point *)

Lemma main_handler_catches (body : M unit) (w : World) (e : exn) :
  result (try_except body main_handler w) = Raise e → e = CancelledError.
Proof.
  unfold try_except, main_handler.
  destruct (body w) as [[[]|e'] v evs]; [done|].
  by destruct e'; cbn; intros [= <-].
Qed.

Lemma main_handler_keeps (P : assertion) (e : exn) (h : M unit) :
  stable P → main_handler e = Some h → turns P P h.
Proof.
  intros HP. unfold main_handler.
  destruct e; cbn; intros [= <-]; turns_atoms; repeat turns_step HP.
Qed.

(** Without exactly one argument [main] prints the usage line and exits
    with status 1; it builds no system and starts nothing. *)
Theorem main_usage
    (argv0 : string) (args : list string) (constructed : outcome unit)
    (env : Environment) :
  length args ≠ 1%nat →
  main argv0 args constructed env
  = SysExit ("Usage: python " +:+ argv0 +:+ " <youtube_live_url>") 1.
Proof. by destruct args as [|url [|url' args]]. Qed.

Lemma main_usage_witness :
  main "betting_system.py" [] (Ret tt) all_succeeds
  = SysExit
      ("Usage: python " +:+ "betting_system.py" +:+ " <youtube_live_url>") 1.
Proof.
  apply (main_usage "betting_system.py" [] (Ret tt) all_succeeds).
  discriminate.
Defined.

(** With one argument and a system that could be built, [main] runs the
    system and always shuts it down: whatever happens in [start], the
    running flag ends clear and the last thing done is the log of the
    shutdown; every exception but a cancellation is caught; the keyword set
    is the configured one and the registry is empty as it began; and every
    producer that was spawned has been sent the termination signal or has
    exited. *)
Theorem main_shuts_down
    (argv0 youtube_url : string) (env : Environment) :
  ∃ r,
    main argv0 [youtube_url] (Ret tt) env = Completed r
    ∧ is_running (self (final r)) = false
    ∧ last (events r) = Some (EvLog INFO "System has been shut down.")
    ∧ (∀ e, result r = Raise e → e = CancelledError)
    ∧ keywords (self (final r)) = keywords (__init__ betting_keywords 8765)
    ∧ clients (self (final r)) = ∅
    ∧ (∀ cmd q, EvSpawn ("ffmpeg" :: cmd) q ∈ events r →
         EvTerminate q ∈ events r
         ∨ ∃ rc, ffmpeg_process (self (final r))
                 = Some {| pid := q; returncode := Some rc |}).
Proof.
  eexists. split; [reflexivity|].
  set (w0 := {| self := __init__ betting_keywords 8765; ticks := 0 |}).
  set (body := try_except (start env youtube_url) main_handler).
  set (fin := stop >> logger_info "System has been shut down.").
  assert (∀ v, fin v
    = Run (Ret tt) {| self := set_is_running false (self v); ticks := ticks v |}
        (stop_events (self v) ++ [EvLog INFO "System has been shut down."]))
    as Hfin.
  { intros v. unfold fin, bind. by rewrite stop_run. }
  assert (turns no_producer producer_settled (try_finally body fin)) as Hset.
  { apply (turns_try_finally _ producer_settled).
    - apply (turns_try_except _ producer_settled);
        [apply start_settles
        |by eauto using main_handler_keeps, producer_settled_stable
        |by intros ??].
    - unfold fin. turns_atoms.
      repeat first [ apply (stop_keeps _ producer_settled_stable)
                   | turns_step producer_settled_stable ]. }
  assert (turns (same_setup (self w0)) (same_setup (self w0))
            (try_finally body fin)) as Hsetup.
  { pose proof (same_setup_stable (self w0)) as HS.
    apply (turns_try_finally _ (same_setup (self w0))).
    - apply (turns_try_except _ (same_setup (self w0)));
        [apply start_keeps_setup
        |by eauto using main_handler_keeps
        |by intros ??].
    - unfold fin. turns_atoms.
      repeat first [ apply (stop_keeps _ HS) | turns_step HS ]. }
  specialize (Hset w0 [] ltac:(constructor)).
  specialize (Hsetup w0 [] ltac:(done)).
  destruct Hsetup as (Hk & _ & _ & Hc).
  pose proof (main_handler_catches (start env youtube_url) w0) as Hcatch.
  fold body in Hcatch. cbn [app] in Hset.
  revert Hset Hk Hc. unfold try_finally.
  destruct (body w0) as [x v evs]. rewrite Hfin. cbn in Hcatch.
  cbn [result final events self]. intros Hset Hk Hc.
  split; [done|]. split; [by rewrite (assoc_L (++)), last_snoc|]. done.
Qed.

(** ** A run that streams *)

Lemma response_events_report (time_time : nat → Z) (s : BettingSystem)
    (tick : nat) (xs : list StreamingRecognitionResult) :
  Forall (λ e, reports e = true) (response_events time_time s tick xs).
Proof.
  revert tick. induction xs as [|x xs IH]; intros tick; [constructor|].
  cbn [response_events]. destruct (has_alternative x); [|apply IH].
  constructor; [done|]. apply Forall_app. split; [|apply IH].
  destruct (detected s x); by repeat constructor.
Qed.

Lemma reports_observed (evs : list event) :
  Forall (λ e, reports e = true) evs →
  spawns evs = [] ∧ terminations evs = [] ∧ sessions_opened evs = 0%nat.
Proof.
  induction 1 as [|e evs He _ (IH1 & IH2 & IH3)]; [done|].
  destruct e; try done; cbn in *; by rewrite ?IH1, ?IH2.
Qed.

Lemma messages_of_ext (time_time : nat → Z) (s s' : BettingSystem)
    (tick : nat) (xs : list StreamingRecognitionResult) :
  keywords s = keywords s' →
  messages_of time_time s tick xs = messages_of time_time s' tick xs.
Proof.
  intros Hk. revert tick. induction xs as [|x xs IH]; intros tick; [done|].
  cbn [messages_of]. rewrite !IH. unfold _find_keywords. by rewrite Hk.
Qed.

Lemma get_stream_url_success (p : nat) (out : string) (err : option string)
    (youtube_url : string) (w : World) :
  _get_stream_url (Ret p) (Ret (printed out err)) youtube_url w
  = Run (Ret (Some (last_item (PyStr.split_on "010" (PyStr.strip out))))) w
      [EvLog INFO "Getting direct stream URL from yt-dlp (15s timeout)...";
       EvSpawn ["yt-dlp"; "-g"; youtube_url] p;
       EvLog INFO "Successfully got stream URL."].
Proof. reflexivity. Qed.

Lemma start_ffmpeg_process_alive (q : nat) (errors : outcome (option string))
    (stream_url : string) (w : World) :
  _start_ffmpeg_process (Ret q) (Ret None) errors stream_url w
  = Run (Ret tt)
      {| self := set_ffmpeg_process (Some {| pid := q; returncode := None |})
                   (self w);
         ticks := ticks w |}
      [EvLog INFO "Starting FFmpeg to capture audio stream...";
       EvSpawn ["ffmpeg"; "-i"; stream_url; "-f"; "s16le"; "-ar"; "16000";
                "-ac"; "1"; "-"] q;
       EvLog INFO "Audio stream capture started successfully."].
Proof. reflexivity. Qed.

Lemma spawns_app (evs evs' : list event) :
  spawns (evs ++ evs') = spawns evs ++ spawns evs'.
Proof. apply omap_app. Qed.

Lemma terminations_app (evs evs' : list event) :
  terminations (evs ++ evs') = terminations evs ++ terminations evs'.
Proof. apply omap_app. Qed.

Lemma sessions_opened_app (evs evs' : list event) :
  sessions_opened (evs ++ evs')
  = (sessions_opened evs + sessions_opened evs')%nat.
Proof. unfold sessions_opened. by rewrite filter_app, length_app. Qed.


Lemma response_events_ext (time_time : nat → Z) (s s' : BettingSystem)
    (tick : nat) (xs : list StreamingRecognitionResult) :
  keywords s = keywords s' →
  response_events time_time s tick xs = response_events time_time s' tick xs.
Proof.
  intros Hk. revert tick. induction xs as [|x xs IH]; intros tick; [done|].
  cbn [response_events]. rewrite !IH.
  unfold detected, detection_line, _find_keywords. by rewrite Hk.
Qed.

(** The recognition stream neither reads nor writes the process object:
    run with another value of [self.ffmpeg_process], it does the same and
    leaves that value. So an exit of the producer recorded at any
    suspension of the stream gives the run that [awaiting] describes. *)
Lemma stream_ignores_producer (time_time : nat → Z) (opened : outcome unit)
    (responses : list StreamingRecognizeResponse) (ending : option exn)
    (p : option Process) (w : World) :
  _google_stt_stream time_time opened responses ending
    {| self := set_ffmpeg_process p (self w); ticks := ticks w |}
  = match _google_stt_stream time_time opened responses ending w with
    | Run x w' evs =>
        Run x {| self := set_ffmpeg_process p (self w'); ticks := ticks w' |}
          evs
    end.
Proof.
  unfold _google_stt_stream, logger_info, emit, bind.
  cbn [after result final events].
  destruct opened as [[]|e]; [|done]. cbn [after].
  assert (∀ s t,
    consume_responses time_time responses ending
      {| self := set_ffmpeg_process p s; ticks := t |}
    = match consume_responses time_time responses ending
              {| self := s; ticks := t |} with
      | Run x w' evs =>
          Run x
            {| self := set_ffmpeg_process p (self w'); ticks := ticks w' |}
            evs
      end) as Hloop.
  { induction responses as [|[xs] rs IH]; intros s t.
    - cbn. by destruct ending.
    - cbn [consume_responses]. unfold bind at 1 3, get_self.
      cbn [result final events after self is_running set_ffmpeg_process].
      destruct (is_running s); [|done]. cbn [negb].
      unfold bind. rewrite !process_response_exact.
      cbn [self ticks after]. rewrite IH.
      rewrite (response_events_ext time_time
                 (set_ffmpeg_process p s) s) by done.
      by destruct (consume_responses time_time rs ending _). }
  destruct w as [s t]. cbn [self ticks]. rewrite Hloop.
  by destruct (consume_responses _ _ _ _).
Qed.

Lemma reaped_live (exited : option Z) (q : nat) (s : BettingSystem) :
  reaped exited
    (set_ffmpeg_process (Some {| pid := q; returncode := None |}) s)
  = set_ffmpeg_process (Some {| pid := q; returncode := exited |}) s.
Proof. by destruct exited. Qed.

Lemma start_body_streams (env : Environment) (youtube_url : string)
    (w : World) (p q : nat) (out : string) (err : option string) :
  let stream_url := last_item (PyStr.split_on "010" (PyStr.strip out)) in
  is_running (self w) = true →
  env_ytdlp_spawn env = Ret p →
  env_ytdlp_communicate env = Ret (printed out err) →
  truthy (Some stream_url) = true →
  env_ffmpeg_spawn env = Ret q →
  env_ffmpeg_sleep env = Ret None →
  env_stt_open env = Ret tt →
  start_body env youtube_url w
  = Run (stream_end (env_stt_ending env))
      {| self := set_ffmpeg_process
                   (Some {| pid := q; returncode := env_stream_exit env |})
                   (self w);
         ticks := ticks w
                  + length (heard (all_results (env_stt_responses env))) |}
      (acquired youtube_url p stream_url q
       ++ response_events (env_time env) (self w)
            (ticks w) (all_results (env_stt_responses env))).
Proof.
  intros stream_url Hrun Hyt Hcomm Htruthy Hff Hsleep Hopen.
  unfold start_body. unfold bind at 1.
  rewrite Hyt, Hcomm, get_stream_url_success. fold stream_url.
  unfold bind at 1. rewrite Htruthy.
  cbn [ret after result final events default].
  unfold bind at 1.
  rewrite Hff, Hsleep, start_ffmpeg_process_alive.
  rewrite awaiting_run, Hopen, google_stt_stream_exact by done.
  cbn [self ticks]. rewrite reaped_live.
  rewrite (response_events_ext (env_time env)
             (set_ffmpeg_process (Some {| pid := q; returncode := None |})
                (self w)) (self w)) by done.
  reflexivity.
Qed.

Lemma acquired_observed (youtube_url : string) (p q : nat)
    (stream_url : string) :
  spawns (acquired youtube_url p stream_url q) = [("yt-dlp", p); ("ffmpeg", q)]
  ∧ terminations (acquired youtube_url p stream_url q) = []
  ∧ sessions_opened (acquired youtube_url p stream_url q) = 1%nat
  ∧ submitted (acquired youtube_url p stream_url q) = [].
Proof. by repeat split. Qed.

Lemma prelude_observed (youtube_url : string) (port : Z) :
  spawns (start_prelude youtube_url port ++ [server_started port]) = []
  ∧ terminations (start_prelude youtube_url port ++ [server_started port])
    = []
  ∧ sessions_opened (start_prelude youtube_url port ++ [server_started port])
    = 0%nat
  ∧ submitted (start_prelude youtube_url port ++ [server_started port]) = [].
Proof. by repeat split. Qed.

Lemma start_streams_run (env : Environment) (youtube_url : string)
    (w : World) (p q : nat) (out : string) (err : option string) :
  let stream_url := last_item (PyStr.split_on "010" (PyStr.strip out)) in
  env_serve env = Ret tt →
  env_ytdlp_spawn env = Ret p →
  env_ytdlp_communicate env = Ret (printed out err) →
  truthy (Some stream_url) = true →
  env_ffmpeg_spawn env = Ret q →
  env_ffmpeg_sleep env = Ret None →
  env_stt_open env = Ret tt →
  start env youtube_url w
  = Run (streamed_result (env_stt_ending env) (env_wait_closed env))
      {| self := set_ffmpeg_process
                   (Some {| pid := q; returncode := recorded_exit env |})
                   (set_is_running false (self w));
         ticks := ticks w
                  + length (heard (all_results (env_stt_responses env))) |}
      ((start_prelude youtube_url (ws_port (self w))
        ++ [server_started (ws_port (self w))])
       ++ (acquired youtube_url p stream_url q
           ++ response_events (env_time env) (self w) (ticks w)
                (all_results (env_stt_responses env)))
       ++ stream_report (env_stt_ending env)
       ++ shutdown q (env_stream_exit env) (env_wait_closed env)).
Proof.
  intros stream_url Hserve Hyt Hcomm Htruthy Hff Hsleep Hopen.
  rewrite start_run, Hserve. unfold try_finally, try_except.
  rewrite (start_body_streams env youtube_url _ p q out err) by done.
  fold stream_url. cbn [self ticks].
  rewrite (response_events_ext (env_time env)
             (set_is_running true (self w)) (self w)) by done.
  set (evs0 := acquired _ _ _ _ ++ _). set (n := (ticks w + _)%nat).
  set (pre := start_prelude _ _ ++ _).
  clearbody evs0 n pre.
  unfold stream_end, stream_report, streamed_result, shutdown, recorded_exit.
  destruct (env_stt_ending env) as [e|];
    [unfold start_handler; destruct (is_Exception e)|];
    unfold logger_error, emit; cbn [after];
    rewrite start_cleanup_exact; unfold stop_events, live_producer, reaped;
    cbn [self ticks ffmpeg_process set_ffmpeg_process set_is_running
         returncode pid mbind option_bind];
    destruct (env_stream_exit env) as [rc|];
    destruct (env_closed_exit env) as [rc'|];
    destruct (env_wait_closed env) as [[]|e'];
    cbn [after app]; rewrite <- ?(assoc_L (++)), ?app_nil_r; reflexivity.
Qed.

Lemma shutdown_observed (q : nat) (exited : option Z)
    (closed : outcome unit) :
  spawns (shutdown q exited closed) = []
  ∧ terminations (shutdown q exited closed)
    = match exited with None => [q] | Some _ => [] end
  ∧ sessions_opened (shutdown q exited closed) = 0%nat
  ∧ submitted (shutdown q exited closed) = [].
Proof. by destruct exited, closed as [[]|e]. Qed.

Lemma stream_report_observed (ending : option exn) :
  spawns (stream_report ending) = []
  ∧ terminations (stream_report ending) = []
  ∧ sessions_opened (stream_report ending) = 0%nat
  ∧ submitted (stream_report ending) = [].
Proof.
  destruct ending as [e|]; [|done]. unfold stream_report.
  by destruct (is_Exception e).
Qed.

(** A run of [start] in which every step of the acquisition succeeds: the
    server is bound, the resolver [p] prints [out] with exit status 0 and
    the last line of the stripped [out] is not empty, the producer [q] is
    alive after the grace period and the recognition session opens. Then
    [start] spawns yt-dlp and ffmpeg, in this order and nothing else, and
    the input of ffmpeg is that last line; it opens one session and submits
    one broadcast for each result that has an alternative, in the order of
    arrival, with the keywords [_find_keywords] reports; if the stream ends
    with an [Exception] it logs the failure. Its [stop] sends the
    termination signal to the producer, once, exactly when the event loop
    has recorded no exit of the producer during the stream: a producer that
    ended by itself is not signalled. [start] clears the running flag,
    leaves the producer in [self.ffmpeg_process] with the exit status the
    event loop has recorded by then, if any, and is left as the end of the
    stream and the wait for the server decide. *)
Theorem start_streams_and_broadcasts (env : Environment)
    (youtube_url : string) (w : World) (p q : nat) (out : string)
    (err : option string) :
  let stream_url := last_item (PyStr.split_on "010" (PyStr.strip out)) in
  env_serve env = Ret tt →
  env_ytdlp_spawn env = Ret p →
  env_ytdlp_communicate env = Ret (printed out err) →
  truthy (Some stream_url) = true →
  env_ffmpeg_spawn env = Ret q →
  env_ffmpeg_sleep env = Ret None →
  env_stt_open env = Ret tt →
  let r := start env youtube_url w in
  spawns (events r) = [("yt-dlp", p); ("ffmpeg", q)]
  ∧ EvSpawn ["ffmpeg"; "-i"; stream_url; "-f"; "s16le"; "-ar"; "16000";
             "-ac"; "1"; "-"] q ∈ events r
  ∧ sessions_opened (events r) = 1%nat
  ∧ submitted (events r)
    = messages_of (env_time env) (self w) (ticks w)
        (all_results (env_stt_responses env))
  ∧ (∀ e, env_stt_ending env = Some e → is_Exception e = true →
          system_failed (exn_str e) ∈ events r)
  ∧ terminations (events r)
    = match env_stream_exit env with None => [q] | Some _ => [] end
  ∧ is_running (self (final r)) = false
  ∧ ffmpeg_process (self (final r))
    = Some {| pid := q; returncode := recorded_exit env |}
  ∧ result r = streamed_result (env_stt_ending env) (env_wait_closed env).
Proof.
  intros stream_url Hserve Hyt Hcomm Htruthy Hff Hsleep Hopen r.
  unfold r.
  rewrite (start_streams_run env youtube_url w p q out err) by done.
  fold stream_url. cbn [result final events self].
  pose proof (prelude_observed youtube_url (ws_port (self w)))
    as (Hp1 & Hp2 & Hp3 & Hp4).
  pose proof (acquired_observed youtube_url p q stream_url)
    as (Ha1 & Ha2 & Ha3 & Ha4).
  pose proof (reports_observed _
    (response_events_report (env_time env) (self w) (ticks w)
       (all_results (env_stt_responses env)))) as (Hr1 & Hr2 & Hr3).
  pose proof (stream_report_observed (env_stt_ending env))
    as (Hs1 & Hs2 & Hs3 & Hs4).
  pose proof (shutdown_observed q (env_stream_exit env) (env_wait_closed env))
    as (Hd1 & Hd2 & Hd3 & Hd4).
  set (pre := start_prelude _ _ ++ _) in *.
  set (acq := acquired _ _ _ _) in *.
  set (resp := response_events _ _ _ _) in *.
  set (rep := stream_report _) in *.
  set (shut := shutdown _ _ _) in *.
  split; [|split; [|split; [|split; [|split; [|split; [|split;
    [|split]]]]]]].
  - rewrite !spawns_app. by rewrite Hp1, Ha1, Hr1, Hs1, Hd1.
  - rewrite !elem_of_app. right. left. left. unfold acq, acquired.
    in_events.
  - rewrite !sessions_opened_app. by rewrite Hp3, Ha3, Hr3, Hs3, Hd3.
  - rewrite !submitted_app. unfold resp at 1.
    rewrite submitted_response_events.
    by rewrite Hp4, Ha4, Hs4, Hd4, app_nil_r.
  - intros e He Hexn. rewrite !elem_of_app. right. right. left.
    unfold rep, stream_report. rewrite He, Hexn. in_events.
  - rewrite !terminations_app. by rewrite Hp2, Ha2, Hr2, Hs2, Hd2.
  - done.
  - done.
  - done.
Qed.

Lemma start_streams_and_broadcasts_witness :
  let r := start producer_ends "https://youtu.be/x" idle_world in
  spawns (events r) = [("yt-dlp", 41%nat); ("ffmpeg", 42%nat)]
  ∧ submitted (events r)
    = messages_of (env_time producer_ends) (self idle_world) 0
        (all_results bet_responses)
  ∧ terminations (events r) = []
  ∧ ffmpeg_process (self (final r))
    = Some {| pid := 42%nat; returncode := Some 0 |}.
Proof.
  pose proof (start_streams_and_broadcasts producer_ends "https://youtu.be/x"
                idle_world 41 42 "https://a.example/a.m3u8" (Some "")
                eq_refl eq_refl eq_refl eq_refl eq_refl eq_refl eq_refl)
    as (H1 & _ & _ & H4 & _ & H6 & _ & H8 & _).
  exact (conj H1 (conj H4 (conj H6 H8))).
Defined.

Lemma start_settles_every_producer_witness :
  EvTerminate 42%nat
    ∈ events (start streams_bet "https://youtu.be/x" idle_world)
  ∨ ∃ rc, ffmpeg_process
            (self (final (start streams_bet "https://youtu.be/x" idle_world)))
          = Some {| pid := 42%nat; returncode := Some rc |}.
Proof.
  apply (start_settles_every_producer streams_bet "https://youtu.be/x"
           idle_world
           ["-i"; "https://a.example/a.m3u8"; "-f"; "s16le"; "-ar"; "16000";
            "-ac"; "1"; "-"] 42%nat).
  rewrite (start_streams_run streams_bet "https://youtu.be/x" idle_world
             41 42 "https://a.example/a.m3u8" (Some "")) by done.
  cbn [events]. rewrite !elem_of_app. right. left. left.
  unfold acquired. in_events.
Defined.
